(** * wf2md: a Workflowy text export turned into one Markdown file per note

    A shallow embedding of [wf2md.py].  The script is a straight-line batch
    job: it reads the lines of the export, folds them into per-note row
    lists, concatenates the row lists into one frame, decorates every row
    with a prefix and a suffix chosen from [LEVEL_TO_FORMAT_MAP], and writes
    one file per title.

    Conventions of the embedding.
    - A Python [str] is a [string]; a character is a code point below 256.
    - A Python [int] is a [Z].
    - The module-level variables of the parse loop that may be unbound
      ([tag], [tags], [title]) are [option]s; reading an unbound one is a
      [NameError].
    - A pandas frame is the list of its rows in index order.
    - The set [unmapped_levels] is threaded explicitly through the calls of
      [get_format_for_level].
    - The export directory is the list of writes, in the order they are
      issued; failures of the operating system are not modelled. *)

From Stdlib Require Import String Ascii List ZArith Lia Bool Arith ListSet.
From Stdlib Require Import Sorted Permutation.
Import ListNotations.

Open Scope string_scope.
Open Scope Z_scope.

(* ================================================================== *)
(** * Definitions                                                      *)
(* ================================================================== *)

(** ** Python string methods used by the script *)

Module PyStr.

Definition len (s : string) : Z := Z.of_nat (String.length s).

(** [str.isspace] on one character, for code points below 256. *)
Definition isspace (c : ascii) : bool :=
  let n := nat_of_ascii c in
  ((9 <=? n) && (n <=? 13))%nat || ((28 <=? n) && (n <=? 32))%nat
  || (n =? 133)%nat || (n =? 160)%nat.

(** [s.lstrip(' ')]: drop the leading run of the given character. *)
Fixpoint lstrip_char (ch : ascii) (s : string) : string :=
  match s with
  | EmptyString => EmptyString
  | String c s' => if Ascii.eqb c ch then lstrip_char ch s' else s
  end.

Fixpoint lstrip (s : string) : string :=
  match s with
  | EmptyString => EmptyString
  | String c s' => if isspace c then lstrip s' else s
  end.

Fixpoint rstrip (s : string) : string :=
  match s with
  | EmptyString => EmptyString
  | String c s' =>
      match rstrip s' with
      | EmptyString => if isspace c then EmptyString else String c EmptyString
      | r => String c r
      end
  end.

(** [s.strip()] *)
Definition strip (s : string) : string := rstrip (lstrip s).

(** [s[n:]] for [n >= 0] *)
Fixpoint drop (n : nat) (s : string) : string :=
  match n, s with
  | O, _ => s
  | S _, EmptyString => EmptyString
  | S k, String _ s' => drop k s'
  end.

(** [s[:n]] for [n >= 0] *)
Fixpoint take (n : nat) (s : string) : string :=
  match n, s with
  | O, _ => EmptyString
  | S _, EmptyString => EmptyString
  | S k, String c s' => String c (take k s')
  end.

(** [s[:h]] and [s[-h:]] with Python's treatment of a negative bound and
    of [-0]. *)
Definition slice_to (h : Z) (s : string) : string :=
  if h <? 0 then take (Z.to_nat (len s + h)) s else take (Z.to_nat h) s.

Definition slice_last (h : Z) (s : string) : string :=
  if 0 <? h then drop (Z.to_nat (len s - h)) s
  else drop (Z.to_nat (- h)) s.

(** [s.replace(a, b)] where [a] and [b] are one character long, as in
    every call of the script. *)
Fixpoint replace (a b : ascii) (s : string) : string :=
  match s with
  | EmptyString => EmptyString
  | String c s' => String (if Ascii.eqb c a then b else c) (replace a b s')
  end.

Definition lower_char (c : ascii) : ascii :=
  let n := nat_of_ascii c in
  if ((65 <=? n) && (n <=? 90))%nat
     || ((192 <=? n) && (n <=? 222) && negb (n =? 215))%nat
  then ascii_of_nat (n + 32) else c.

(** [s.lower()] *)
Fixpoint lower (s : string) : string :=
  match s with
  | EmptyString => EmptyString
  | String c s' => String (lower_char c) (lower s')
  end.

(** [sub in s] *)
Fixpoint contains (sub s : string) : bool :=
  String.prefix sub s ||
  match s with
  | EmptyString => false
  | String _ s' => contains sub s'
  end.

(** [s.split(sep)] for a non-empty [sep]: the scan goes left to right and
    a matched separator is skipped whole ([skip] counts what is left of
    it).  The result is the first token and the list of the others. *)
Fixpoint split_go (sep : string) (skip : nat) (s : string)
  : string * list string :=
  match s with
  | EmptyString => (EmptyString, [])
  | String c s' =>
      match skip with
      | S k => split_go sep k s'
      | O =>
          if String.prefix sep s
          then let (t, ts) := split_go sep (String.length sep - 1) s' in
               (EmptyString, t :: ts)
          else let (t, ts) := split_go sep 0 s' in (String c t, ts)
      end
  end.

Definition split (sep s : string) : list string :=
  let (t, ts) := split_go sep 0 s in t :: ts.

(** [sep.join(l)] *)
Fixpoint join (sep : string) (l : list string) : string :=
  match l with
  | [] => EmptyString
  | [x] => x
  | x :: l' => x ++ sep ++ join sep l'
  end.

(** [s.find(sub)]: the index of the first occurrence, if there is one. *)
Fixpoint find (sub s : string) : option nat :=
  if String.prefix sub s then Some O
  else match s with
       | EmptyString => None
       | String _ s' => option_map S (find sub s')
       end.


End PyStr.

(** ** [hashlib.md5(...).hexdigest()] (RFC 1321) and [str.encode()] *)

Module MD5.

Definition mask32 (x : Z) : Z := Z.land x 0xffffffff.

Definition rotl (x c : Z) : Z :=
  mask32 (Z.lor (Z.shiftl x c) (Z.shiftr x (32 - c))).

Definition not32 (x : Z) : Z := Z.lxor x 0xffffffff.

Definition shifts : list Z :=
  [7; 12; 17; 22; 7; 12; 17; 22; 7; 12; 17; 22; 7; 12; 17; 22;
   5; 9; 14; 20; 5; 9; 14; 20; 5; 9; 14; 20; 5; 9; 14; 20;
   4; 11; 16; 23; 4; 11; 16; 23; 4; 11; 16; 23; 4; 11; 16; 23;
   6; 10; 15; 21; 6; 10; 15; 21; 6; 10; 15; 21; 6; 10; 15; 21].

Definition sines : list Z :=
  [0xd76aa478; 0xe8c7b756; 0x242070db; 0xc1bdceee;
   0xf57c0faf; 0x4787c62a; 0xa8304613; 0xfd469501;
   0x698098d8; 0x8b44f7af; 0xffff5bb1; 0x895cd7be;
   0x6b901122; 0xfd987193; 0xa679438e; 0x49b40821;
   0xf61e2562; 0xc040b340; 0x265e5a51; 0xe9b6c7aa;
   0xd62f105d; 0x02441453; 0xd8a1e681; 0xe7d3fbc8;
   0x21e1cde6; 0xc33707d6; 0xf4d50d87; 0x455a14ed;
   0xa9e3e905; 0xfcefa3f8; 0x676f02d9; 0x8d2a4c8a;
   0xfffa3942; 0x8771f681; 0x6d9d6122; 0xfde5380c;
   0xa4beea44; 0x4bdecfa9; 0xf6bb4b60; 0xbebfbc70;
   0x289b7ec6; 0xeaa127fa; 0xd4ef3085; 0x04881d05;
   0xd9d4d039; 0xe6db99e5; 0x1fa27cf8; 0xc4ac5665;
   0xf4292244; 0x432aff97; 0xab9423a7; 0xfc93a039;
   0x655b59c3; 0x8f0ccc92; 0xffeff47d; 0x85845dd1;
   0x6fa87e4f; 0xfe2ce6e0; 0xa3014314; 0x4e0811a1;
   0xf7537e82; 0xbd3af235; 0x2ad7d2bb; 0xeb86d391].

Record regs := mkRegs { rA : Z; rB : Z; rC : Z; rD : Z }.

Definition init : regs :=
  mkRegs 0x67452301 0xefcdab89 0x98badcfe 0x10325476.

(** One of the 64 operations on the block whose words are [m]. *)
Definition round (m : list Z) (r : regs) (i : nat) : regs :=
  let '(mkRegs a b c d) := r in
  let iz := Z.of_nat i in
  let '(f, g) :=
    if iz <? 16 then (Z.lor (Z.land b c) (Z.land (not32 b) d), iz)
    else if iz <? 32
    then (Z.lor (Z.land d b) (Z.land (not32 d) c), (5 * iz + 1) mod 16)
    else if iz <? 48 then (Z.lxor b (Z.lxor c d), (3 * iz + 5) mod 16)
    else (Z.lxor c (Z.lor b (not32 d)), (7 * iz) mod 16) in
  let f' := mask32 (f + a + nth i sines 0 + nth (Z.to_nat g) m 0) in
  mkRegs d (mask32 (b + rotl f' (nth i shifts 0))) b c.

(** Little-endian word made of four bytes. *)
Definition word_of_bytes (bs : list Z) : Z :=
  fold_right (fun b acc => b + 256 * acc) 0 bs.

Fixpoint words (n : nat) (bs : list Z) : list Z :=
  match n with
  | O => []
  | S k => word_of_bytes (firstn 4 bs) :: words k (skipn 4 bs)
  end.

Definition block (h : regs) (bs : list Z) : regs :=
  let r := fold_left (round (words 16 bs)) (seq 0 64) h in
  mkRegs (mask32 (rA h + rA r)) (mask32 (rB h + rB r))
         (mask32 (rC h + rC r)) (mask32 (rD h + rD r)).

Fixpoint blocks (n : nat) (h : regs) (bs : list Z) : regs :=
  match n with
  | O => h
  | S k => blocks k (block h (firstn 64 bs)) (skipn 64 bs)
  end.

Fixpoint le_bytes (n : nat) (x : Z) : list Z :=
  match n with
  | O => []
  | S k => x mod 256 :: le_bytes k (x / 256)
  end.

Definition pad (msg : list Z) : list Z :=
  let l := Z.of_nat (List.length msg) in
  let zeros := Z.to_nat ((55 - l) mod 64) in
  msg ++ [0x80] ++ repeat 0 zeros ++ le_bytes 8 ((8 * l) mod 2 ^ 64).

Definition digest (msg : list Z) : list Z :=
  let p := pad msg in
  let r := blocks (List.length p / 64) init p in
  le_bytes 4 (rA r) ++ le_bytes 4 (rB r)
  ++ le_bytes 4 (rC r) ++ le_bytes 4 (rD r).

Definition hex_digit (x : Z) : ascii :=
  nth (Z.to_nat (x mod 16))
      (list_ascii_of_string "0123456789abcdef") "0"%char.

Fixpoint hex (bs : list Z) : string :=
  match bs with
  | [] => EmptyString
  | b :: bs' => String (hex_digit (b / 16)) (String (hex_digit b) (hex bs'))
  end.

(** [s.encode()]: UTF-8, for code points below 256. *)
Fixpoint encode (s : string) : list Z :=
  match s with
  | EmptyString => []
  | String c s' =>
      let n := Z.of_nat (nat_of_ascii c) in
      (if n <? 128 then [n]
       else [Z.lor 0xc0 (Z.shiftr n 6); Z.lor 0x80 (Z.land n 0x3f)])
      ++ encode s'
  end.

(** [hashlib.md5(s.encode()).hexdigest()] *)
Definition hexdigest (s : string) : string := hex (digest (encode s)).

End MD5.

(** ** The file-name helper *)

Definition FORBIDDEN_FN_CHARS : list ascii := [":"%char; "/"%char].

(** The loop [for char in FORBIDDEN_FN_CHARS] over
    [title = title.replace(char, '-')] *)
Definition replace_forbidden (title : string) : string :=
  fold_left (fun t ch => PyStr.replace ch "-"%char t) FORBIDDEN_FN_CHARS title.

Definition get_safe_filename_len (title : string) (max_length : Z) : string :=
  let title := replace_forbidden title in
  if PyStr.len title <=? max_length then title
  else
    let title_hash := PyStr.take 8 (MD5.hexdigest title) in
    let half_length := (max_length - PyStr.len title_hash - 3) / 2 in
    let truncated :=
      PyStr.slice_to half_length title ++ "..."
      ++ PyStr.slice_last half_length title in
    truncated ++ "-" ++ title_hash.

(** [get_safe_filename(title)] with the default [max_length=100] *)
Definition get_safe_filename (title : string) : string :=
  get_safe_filename_len title 100.

(** ** Uncaught exceptions and results *)

Inductive exn : Type :=
| FileNotFoundError               (* no [*.txt] in the import directory *)
| NameError (name : string)       (* a variable read before assignment *)
| ValueError (msg : string).

Definition result (A : Type) : Type := (exn + A)%type.

Definition ret {A : Type} (a : A) : result A := inr a.
Definition raise {A : Type} (e : exn) : result A := inl e.
Definition bind {A B : Type} (m : result A) (k : A -> result B) : result B :=
  match m with
  | inl e => inl e
  | inr a => k a
  end.

Notation "x <- m ;; k" := (bind m (fun x => k))
  (at level 61, m at next level, right associativity).

(** Reading a module-level variable. *)
Definition read {A : Type} (name : string) (v : option A) : result A :=
  match v with
  | Some a => ret a
  | None => raise (NameError name)
  end.

(** ** The parse loop *)

(** One row of a note's frame, columns ['Tags', 'Title', 'Level', 'Text']. *)
Record row : Type := mkRow {
  Tags : list string;
  Title : string;
  Level : Z;
  Text : string
}.

Definition frame : Type := list row.

(** The variables the loop reads and writes.  [tag], [tags] and [title]
    are unbound until their first assignment. *)
Record env : Type := mkEnv {
  tag : option string;
  tags : option (list string);
  title : option string;
  note_rows : list row;
  note_dfs : list frame
}.

Definition env0 : env := mkEnv None None None [] [].

(** [int((len(line) - len(line.lstrip(' '))) / 2)] *)
Definition level_of (line : string) : Z :=
  Z.quot (PyStr.len line - PyStr.len (PyStr.lstrip_char " "%char line)) 2.

(** [line.strip()[2:]] *)
Definition text_of (line : string) : string :=
  PyStr.drop 2 (PyStr.strip line).

(** [text.replace(' ', '-').replace('/', '-').lower()] *)
Definition tag_of (text : string) : string :=
  PyStr.lower (PyStr.replace "/"%char "-"%char
                 (PyStr.replace " "%char "-"%char text)).

(** Lines 70-74: the title and the inline tags of a level-1 text. *)
Definition split_title (text : string) : string * list string :=
  if PyStr.contains "#" text
  then match PyStr.split " #" text with
       | t :: ts => (t, ts)
       | [] => (EmptyString, [])
       end
  else (text, []).

(** The body of [for i, line in enumerate(lines)].  The variable [h1] of
    the last branch is assigned and never read; it is left out. *)
Definition loop_body (i : Z) (line : string) (e : env) : result env :=
  let level := level_of line in
  let text := text_of line in
  if level =? 0 then
    ret (mkEnv (Some (tag_of text)) (tags e) (title e)
               (note_rows e) (note_dfs e))
  else if level =? 1 then
    let dfs :=
      if 1 <? i then (note_dfs e ++ [note_rows e])%list else note_dfs e in
    let (title0, tags0) := split_title text in
    let title1 := replace_forbidden title0 in
    tg <- read "tag" (tag e) ;;
    let tags1 := map PyStr.strip ("workflowy-import" :: tg :: tags0) in
    ret (mkEnv (tag e) (Some tags1) (Some title1) [] dfs)
  else
    tgs <- read "tags" (tags e) ;;
    ttl <- read "title" (title e) ;;
    ret (mkEnv (tag e) (tags e) (title e)
               (note_rows e ++ [mkRow tgs ttl (level - 1) text])%list
               (note_dfs e)).

Fixpoint loop (i : Z) (lines : list string) (e : env) : result env :=
  match lines with
  | [] => ret e
  | line :: rest => e' <- loop_body i line e ;; loop (i + 1) rest e'
  end.

(** The state in which the loop over [lines] ends. *)
Definition parse (lines : list string) : result env := loop 0 lines env0.

(** ** The format table *)

Fixpoint dict_get {V : Type} (k : Z) (d : list (Z * V)) : option V :=
  match d with
  | [] => None
  | (k', v) :: d' => if k =? k' then Some v else dict_get k d'
  end.

Definition NL : string := String (ascii_of_nat 10) EmptyString.
Definition TAB : string := String (ascii_of_nat 9) EmptyString.

Definition fmt : Type := (string * string)%type.

Definition LEVEL_TO_FORMAT_MAP : list (Z * list (Z * fmt)) :=
  [ (1, [ (1, ("", "")) ]);
    (2, [ (1, (NL ++ "# ", NL));
          (2, ("", "")) ]);
    (3, [ (1, (NL ++ "# ", NL));
          (2, (NL ++ "## ", NL));
          (3, ("", "")) ]);
    (4, [ (1, (NL ++ "# ", NL));
          (2, (NL ++ "## ", NL));
          (3, ("", ""));
          (4, ("* ", "")) ]);
    (5, [ (1, (NL ++ "# ", NL));
          (2, (NL ++ "## ", NL));
          (3, ("", ""));
          (4, ("* ", ""));
          (5, (TAB ++ "* ", "")) ]);
    (6, [ (1, (NL ++ "# ", NL));
          (2, (NL ++ "## ", NL));
          (3, (NL ++ "### ", NL));
          (4, ("", ""));
          (5, ("* ", ""));
          (6, (TAB ++ "* ", "")) ]);
    (7, [ (1, (NL ++ "# ", NL));
          (2, (NL ++ "## ", NL));
          (3, (NL ++ "### ", NL));
          (4, ("", ""));
          (5, ("* ", ""));
          (6, (TAB ++ "* ", ""));
          (7, (TAB ++ TAB ++ "* ", "")) ]);
    (8, [ (1, (NL ++ "# ", NL));
          (2, (NL ++ "## ", NL));
          (3, (NL ++ "### ", NL));
          (4, ("", ""));
          (5, ("* ", ""));
          (6, (TAB ++ "* ", ""));
          (7, (TAB ++ TAB ++ "* ", ""));
          (8, (TAB ++ TAB ++ TAB ++ "* ", "")) ]);
    (9, [ (1, (NL ++ "# ", NL));
          (2, (NL ++ "## ", NL));
          (3, (NL ++ "### ", NL));
          (4, ("", ""));
          (5, ("* ", ""));
          (6, (TAB ++ "* ", ""));
          (7, (TAB ++ TAB ++ "* ", ""));
          (8, (TAB ++ TAB ++ TAB ++ "* ", ""));
          (9, (TAB ++ TAB ++ TAB ++ TAB ++ "* ", "")) ]);
    (10, [ (1, (NL ++ "# ", NL));
           (2, (NL ++ "## ", NL));
           (3, (NL ++ "### ", NL));
           (4, ("", ""));
           (5, ("* ", ""));
           (6, (TAB ++ "* ", ""));
           (7, (TAB ++ TAB ++ "* ", ""));
           (8, (TAB ++ TAB ++ TAB ++ "* ", ""));
           (9, (TAB ++ TAB ++ TAB ++ TAB ++ "* ", ""));
           (10, (TAB ++ TAB ++ TAB ++ TAB ++ TAB ++ "* ", "")) ]) ].

(** [LEVEL_TO_FORMAT_MAP[max_level][current_level]], when both keys exist. *)
Definition table_entry (max_level current_level : Z) : option fmt :=
  match dict_get max_level LEVEL_TO_FORMAT_MAP with
  | Some t => dict_get current_level t
  | None => None
  end.

(** The Python set [unmapped_levels]: a list without repetition. *)
Definition levelset : Type := list Z.

Definition set_insert (x : Z) (s : levelset) : levelset :=
  set_add Z.eq_dec x s.

(** [get_format_for_level]; the set is passed in and handed back. *)
Definition get_format_for_level (max_level current_level : Z)
    (unmapped_levels : levelset) : fmt * levelset :=
  if max_level <? current_level then
    (("", ""), set_insert current_level unmapped_levels)
  else
    match dict_get max_level LEVEL_TO_FORMAT_MAP with
    | None => (("", ""), set_insert max_level unmapped_levels)
    | Some t =>
        match dict_get current_level t with
        | None => (("", ""), set_insert current_level unmapped_levels)
        | Some f => (f, unmapped_levels)
        end
    end.

(** ** The frame pipeline *)

(** [pd.concat(note_dfs, ignore_index=True)]; pandas refuses an empty list. *)
Definition pd_concat (dfs : list frame) : result frame :=
  match dfs with
  | [] => raise (ValueError "No objects to concatenate")
  | _ => ret (concat dfs)
  end.

(** [.loc[lambda x: x.Text.str.len() > 0]] *)
Definition drop_empty (df : frame) : frame :=
  filter (fun r => 0 <? PyStr.len (Text r)) df.

(** The rows of the group of [t] under [groupby('Title')], in frame order. *)
Definition group_of {A : Type} (key : A -> string) (t : string) (df : list A)
  : list A :=
  filter (fun r => String.eqb (key r) t) df.

(** [x.groupby('Title').Level.transform('max')]: every row receives the
    largest level of the rows sharing its title (its own included). *)
Definition max_level_of (df : frame) (r : row) : Z :=
  fold_left Z.max (map Level (group_of Title (Title r) df)) (Level r).

Definition assign_MaxLevel (df : frame) : list (row * Z) :=
  map (fun r => (r, max_level_of df r)) df.

(** [x.apply(lambda row: get_format_for_level(row.MaxLevel, row.Level)[k],
    axis=1)]: one call per row, in row order; [sel] is the index [k]. *)
Fixpoint apply_format (sel : fmt -> string) (rows : list (row * Z))
    (u : levelset) : list string * levelset :=
  match rows with
  | [] => ([], u)
  | (r, m) :: rest =>
      let (f, u1) := get_format_for_level m (Level r) u in
      let (ps, u2) := apply_format sel rest u1 in
      (sel f :: ps, u2)
  end.

(** A row of the finished frame [df]. *)
Record frow : Type := mkFrow {
  fTags : list string;
  fTitle : string;
  fLevel : Z;
  fText : string;
  MaxLevel : Z;
  Prefix : string;
  Suffix : string;
  Output : string
}.

(** The last two [assign]s: [Output = Prefix + Text + Suffix] and
    [Title = Title.str.replace('/', '-')]. *)
Definition finish_row (rm : row * Z) (ps : string * string) : frow :=
  let (r, m) := rm in
  let (p, s) := ps in
  mkFrow (Tags r) (PyStr.replace "/"%char "-"%char (Title r)) (Level r)
         (Text r) m p s (p ++ Text r ++ s).

(** The chain of [assign]s applied to the filtered frame. *)
Definition format_frame (df : frame) (u : levelset) : list frow * levelset :=
  let rows := assign_MaxLevel df in
  let (prefixes, u1) := apply_format fst rows u in
  let (suffixes, u2) := apply_format snd rows u1 in
  (map (fun x => finish_row (fst x) (snd x))
       (combine rows (combine prefixes suffixes)), u2).

(** ** The export loop *)

Fixpoint insert_title (t : string) (l : list string) : list string :=
  match l with
  | [] => [t]
  | x :: l' =>
      match String.compare t x with
      | Lt => t :: l
      | Eq => l
      | Gt => x :: insert_title t l'
      end
  end.

(** The keys of [df.groupby('Title')]: distinct titles in sorted order. *)
Definition group_keys (df : list frow) : list string :=
  fold_right insert_title [] (map fTitle df).

(** What the two [f.write] calls put into the file of one group. *)
Definition file_content (note_df : list frow) : string :=
  ("#" ++ PyStr.join " #" (match note_df with
                           | r :: _ => fTags r
                           | [] => []
                           end) ++ NL)
  ++ PyStr.join NL (map Output note_df).

(** One iteration of [for title, note_df in df.groupby('Title')]: the name
    of the file below the export directory and its content. *)
Definition export_group (df : list frow) (t : string) : string * string :=
  (get_safe_filename t ++ ".md", file_content (group_of fTitle t df)).

Definition export (df : list frow) : list (string * string) :=
  map (export_group df) (group_keys df).

(** [sorted(unmapped_levels)] *)
Fixpoint insert_level (x : Z) (l : list Z) : list Z :=
  match l with
  | [] => [x]
  | y :: l' => if x <=? y then x :: l else y :: insert_level x l'
  end.

Definition sorted (s : levelset) : list Z := fold_right insert_level [] s.

(** What the two [print] calls at the end report: the number of distinct
    titles, and the sorted unmapped levels when there is any. *)
Record report : Type := mkReport {
  exported : nat;
  warning : option (list Z)
}.

Definition final_report (df : list frow) (u : levelset) : report :=
  mkReport (List.length (group_keys df))
           (match u with
            | [] => None
            | _ => Some (sorted u)
            end).

(** ** The whole run *)

Inductive outcome : Type :=
| Aborted (e : exn)
    (* an uncaught exception before the export loop: nothing is written *)
| EmptyFrame
    (* every row was dropped: [apply(axis=1)] is handed an empty frame and
       what follows is decided inside pandas; no group exists, so no file
       is written *)
| Finished (files : list (string * string)) (r : report).

(** The script from the first line to the last; [input] is the result of
    [readlines()] on the first [*.txt] of the import directory, if any. *)
Definition run (input : option (list string)) : outcome :=
  match input with
  | None => Aborted FileNotFoundError
  | Some lines =>
      match parse lines with
      | inl e => Aborted e
      | inr e =>
          match pd_concat (note_dfs e) with
          | inl x => Aborted x
          | inr all_rows =>
              match drop_empty all_rows with
              | [] => EmptyFrame
              | df0 =>
                  let (df, u) := format_frame df0 [] in
                  Finished (export df) (final_report df u)
              end
          end
      end
  end.

(** ** Notions used to state the properties *)

(** The pair a lookup ends with: the table entry, or the default. *)
Definition format_of (max_level current_level : Z) : fmt :=
  match table_entry max_level current_level with
  | Some f => f
  | None => ("", "")
  end.

(** The number a lookup outside the table records: the row's level when it
    exceeds the maximum or when the table of the maximum lacks it, the
    maximum when no table exists for it. *)
Definition unmapped_of (max_level current_level : Z) : option Z :=
  match table_entry max_level current_level with
  | Some _ => None
  | None =>
      Some (if max_level <? current_level then current_level
            else if (1 <=? max_level) && (max_level <=? 10) then current_level
            else max_level)
  end.

Definition record_unmapped (max_level current_level : Z) (u : levelset)
  : levelset :=
  match unmapped_of max_level current_level with
  | Some x => set_insert x u
  | None => u
  end.

(** The finished row of [r] in the frame [df0]. *)
Definition render (df0 : frame) (r : row) : frow :=
  let m := max_level_of df0 r in
  finish_row (r, m) (format_of m (Level r)).

(** What the parse loop maintains: a bound title has no slash left, and
    every row gathered so far has a level of at least 1 and a title without
    slash. *)
Definition row_ok (r : row) : Prop :=
  1 <= Level r /\ PyStr.contains "/" (Title r) = false.

Definition env_ok (e : env) : Prop :=
  (forall t, title e = Some t -> PyStr.contains "/" t = false) /\
  (tags e <> None -> title e <> None) /\
  Forall row_ok (note_rows e) /\
  Forall (Forall row_ok) (note_dfs e).


(** Line [k] of the input has depth [d]. *)
Definition depth_at (lines : list string) (k : nat) (d : Z) : Prop :=
  exists line, nth_error lines k = Some line /\ level_of line = d.

(** Some depth-0 (resp. depth-1) line occurs before line [k]. *)
Definition tag_before (lines : list string) (k : nat) : Prop :=
  exists j, (j < k)%nat /\ depth_at lines j 0.

Definition note_before (lines : list string) (k : nat) : Prop :=
  exists j, (j < k)%nat /\ depth_at lines j 1.

(** The set after the lookup made for one row. *)
Definition record_row (u : levelset) (rm : row * Z) : levelset :=
  record_unmapped (snd rm) (Level (fst rm)) u.

(** ** Sample data *)

Definition title150 : string :=
  String.concat "" (repeat "wxyz-" 30).



Fixpoint indent (n : nat) : string :=
  match n with
  | O => EmptyString
  | S k => String " " (String " " (indent k))
  end.

(** A note whose body nests eleven levels deep, followed by one more note
    (a level-1 line is what makes the loop store the rows before it). *)
Definition eleven_levels : list string :=
  [ "- Deep" ++ NL; "  - Note" ++ NL ]%string
  ++ map (fun k => indent (k + 1) ++ "- row" ++ NL)%string (seq 1 11)
  ++ [ "  - End" ++ NL ]%string.

(** The scenario of the specification, every line with its [- ] bullet as
    Workflowy exports it. *)
Definition spec_example : list string :=
  [ "- Work" ++ NL;
    "  - Project A #urgent" ++ NL;
    "    - Step one" ++ NL;
    "      - Detail x" ++ NL ]%string.

(** The same with a bare first line. *)
Definition spec_example_bare_top : list string :=
  [ "Work" ++ NL;
    "  - Project A #urgent" ++ NL;
    "    - Step one" ++ NL;
    "      - Detail x" ++ NL ]%string.

(** The same followed by one more depth-1 line. *)
Definition spec_example_then_note : list string :=
  spec_example ++ [ "  - Next" ++ NL ]%string.

Definition two_notes : list string :=
  [ "- Inbox" ++ NL;
    "  - First" ++ NL;
    "    - one" ++ NL;
    "  - Second" ++ NL;
    "    - two" ++ NL ]%string.

Definition two_tags_first : list string :=
  [ "- Inbox" ++ NL;
    "- Work" ++ NL;
    "  - First" ++ NL;
    "    - one" ++ NL;
    "  - Second" ++ NL ]%string.

(** Two notes with one title under two tag-contexts. *)
Definition same_title_twice : list string :=
  [ "- Work" ++ NL;
    "  - Plan #a" ++ NL;
    "    - first" ++ NL;
    "- Home" ++ NL;
    "  - Plan #b" ++ NL;
    "    - second" ++ NL;
    "      - deeper" ++ NL;
    "  - End" ++ NL ]%string.

Definition plan_md : string :=
  "#workflowy-import #work #a" ++ NL
  ++ NL ++ "# first" ++ NL ++ NL
  ++ NL ++ "# second" ++ NL ++ NL
  ++ "deeper".



(** Every row gathered so far: the stored notes, then the open one. *)
Definition all_rows (e : env) : list row :=
  concat (note_dfs e) ++ note_rows e.

(** ** Notions used to state the further properties *)

(** The depth-1 lines from index 2 on: the ones at which the loop stores
    the rows gathered before them. *)
Definition later_notes (lines : list string) : list string :=
  filter (fun l => level_of l =? 1) (skipn 2 lines).

(** The rows that the lines of depth 2 or more of [body] stand for, under
    the tags [tgs] and the title [ttl]. *)
Definition body_rows (tgs : list string) (ttl : string) (body : list string)
  : list row :=
  map (fun l => mkRow tgs ttl (level_of l - 1) (text_of l))
      (filter (fun l => 2 <=? level_of l) body).

(** A row as the level-1 branch prepares it: a title that went through
    [replace_forbidden] and a tag list that starts with the fixed tag and
    the tag-context. *)
Definition row_shaped (r : row) : Prop :=
  (exists s, Title r = replace_forbidden s) /\
  (exists tg inline,
      Tags r = "workflowy-import"%string :: PyStr.strip tg
               :: map PyStr.strip inline).

Definition env_shaped (e : env) : Prop :=
  (forall tgs ttl, tags e = Some tgs -> title e = Some ttl ->
                   row_shaped (mkRow tgs ttl 0 "")) /\
  (tags e <> None -> title e <> None) /\
  Forall row_shaped (note_rows e) /\
  Forall (Forall row_shaped) (note_dfs e).

(** The order of [groupby]: code point by code point. *)
Definition title_lt (a b : string) : Prop := String.compare a b = Lt.

(* ================================================================== *)
(** * Properties                                                       *)
(* ================================================================== *)

(** ** Test vectors of the digest *)

Example md5_empty :
  MD5.hexdigest "" = "d41d8cd98f00b204e9800998ecf8427e".
Proof. vm_compute. reflexivity. Qed.
Example md5_abc :
  MD5.hexdigest "abc" = "900150983cd24fb0d6963f7d28e17f72".
Proof. vm_compute. reflexivity. Qed.
Example md5_two_blocks :
  MD5.hexdigest
    "The quick brown fox jumps over the lazy dog, and then 12345678901234567890123456789012345678901234567890 more"
  = "227def7b79dff07eb1604c734a9b0bee".
Proof. vm_compute. reflexivity. Qed.
Example md5_padding_edge :
  MD5.hexdigest "aaaaaaaaaaaaaaaaaaaaaaaaaaaaaaaaaaaaaaaaaaaaaaaaaaaaaaaa"
  = "3b0c8ac703f828b04c6c197006d17218".
Proof. vm_compute. reflexivity. Qed.

(** ** The string methods on sample values *)

Example strip_sample :
  PyStr.strip ("  " ++ TAB ++ "- a b " ++ NL) = "- a b"%string.
Proof. reflexivity. Qed.

Example lower_sample : PyStr.lower "My Tag-2" = "my tag-2"%string.
Proof. reflexivity. Qed.

Example split_sample :
  PyStr.split " #" "a  ##b #" = ["a "; "#b"; ""]%string /\
  PyStr.split " #" "no separator" = ["no separator"]%string.
Proof. split; reflexivity. Qed.

Example line_sample :
  level_of ("    - Step one" ++ NL) = 2 /\
  text_of ("    - Step one" ++ NL) = "Step one"%string /\
  level_of ("   - odd indent" ++ NL) = 1 /\
  tag_of "My Tag/Sub" = "my-tag-sub"%string.
Proof. repeat split; reflexivity. Qed.

(** ** Strings *)

Section StringFacts.

Open Scope nat_scope.

Lemma length_app (s t : string) :
  String.length (s ++ t) = String.length s + String.length t.
Proof. induction s as [|c s IH]; simpl; [reflexivity | now rewrite IH]. Qed.

Lemma app_assoc_str (s t u : string) : ((s ++ t) ++ u = s ++ (t ++ u))%string.
Proof. induction s as [|c s IH]; simpl; [reflexivity | now rewrite IH]. Qed.

Lemma app_empty_r (s : string) : (s ++ "")%string = s.
Proof. induction s as [|c s IH]; simpl; [reflexivity | now rewrite IH]. Qed.

Lemma length_take (n : nat) (s : string) :
  String.length (PyStr.take n s) = Nat.min n (String.length s).
Proof.
  revert s; induction n as [|n IH]; intros [|c s]; simpl; auto.
Qed.

Lemma length_drop (n : nat) (s : string) :
  String.length (PyStr.drop n s) = String.length s - n.
Proof.
  revert s; induction n as [|n IH]; intros [|c s]; simpl; auto.
Qed.

Lemma take_drop (n : nat) (s : string) :
  (PyStr.take n s ++ PyStr.drop n s)%string = s.
Proof.
  revert s; induction n as [|n IH]; intros [|c s]; simpl; auto.
  now rewrite IH.
Qed.

Lemma take_all (n : nat) (s : string) :
  String.length s <= n -> PyStr.take n s = s.
Proof.
  revert s; induction n as [|n IH]; intros [|c s]; simpl; auto; try lia.
  intros H; rewrite IH; [reflexivity | lia].
Qed.

Lemma length_replace (a b : ascii) (s : string) :
  String.length (PyStr.replace a b s) = String.length s.
Proof. induction s as [|c s IH]; simpl; auto. Qed.

Lemma prefix_empty (s : string) : String.prefix "" s = true.
Proof. destruct s; reflexivity. Qed.

Lemma contains_char_cons (x c : ascii) (s : string) :
  PyStr.contains (String x "") (String c s)
  = Ascii.eqb x c || PyStr.contains (String x "") s.
Proof.
  cbn [PyStr.contains String.prefix].
  destruct (ascii_dec x c) as [E|E].
  - rewrite prefix_empty. subst. now rewrite Ascii.eqb_refl.
  - apply Ascii.eqb_neq in E. now rewrite E.
Qed.

(** A replaced character is gone, unless it is put back. *)
Lemma replace_absent (a b : ascii) (s : string) :
  a <> b -> PyStr.contains (String a "") (PyStr.replace a b s) = false.
Proof.
  intros Hab; induction s as [|c s IH]; [reflexivity|].
  cbn [PyStr.replace]. rewrite contains_char_cons, IH, orb_false_r.
  destruct (Ascii.eqb_spec c a) as [->|Hc]; apply Ascii.eqb_neq; congruence.
Qed.

Lemma replace_id (a b : ascii) (s : string) :
  PyStr.contains (String a "") s = false -> PyStr.replace a b s = s.
Proof.
  induction s as [|c s IH]; [reflexivity|].
  rewrite contains_char_cons. intros H. apply orb_false_elim in H as [H1 H2].
  cbn [PyStr.replace]. rewrite IH by exact H2.
  rewrite Ascii.eqb_sym, H1. reflexivity.
Qed.

Lemma contains_char_replace (x a b : ascii) (s : string) :
  x <> b ->
  PyStr.contains (String x "") s = false ->
  PyStr.contains (String x "") (PyStr.replace a b s) = false.
Proof.
  intros Hxb; induction s as [|c s IH]; [reflexivity|].
  rewrite contains_char_cons. intros H. apply orb_false_elim in H as [H1 H2].
  cbn [PyStr.replace]. rewrite contains_char_cons, IH, orb_false_r by exact H2.
  destruct (Ascii.eqb c a); [apply Ascii.eqb_neq; exact Hxb | exact H1].
Qed.



Lemma contains_app_false (x : ascii) (s t : string) :
  PyStr.contains (String x "") s = false ->
  PyStr.contains (String x "") t = false ->
  PyStr.contains (String x "") (s ++ t) = false.
Proof.
  induction s as [|c s IH]; [simpl; auto|].
  change ((String c s ++ t)%string) with (String c (s ++ t)).
  rewrite !contains_char_cons. intros H Ht.
  apply orb_false_elim in H as [H1 H2]. rewrite H1. simpl. auto.
Qed.

Lemma contains_take_false (x : ascii) (n : nat) (s : string) :
  PyStr.contains (String x "") s = false ->
  PyStr.contains (String x "") (PyStr.take n s) = false.
Proof.
  revert s; induction n as [|n IH]; intros [|c s]; try (simpl; auto; fail).
  cbn [PyStr.take]. rewrite !contains_char_cons. intros H.
  apply orb_false_elim in H as [H1 H2]. rewrite H1. simpl. auto.
Qed.

End StringFacts.

(** ** The digest is 32 lower-case hexadecimal digits *)

Lemma le_bytes_length (n : nat) (x : Z) : List.length (MD5.le_bytes n x) = n.
Proof. revert x; induction n as [|n IH]; intros x; simpl; auto. Qed.

Lemma hex_length (bs : list Z) :
  String.length (MD5.hex bs) = (2 * List.length bs)%nat.
Proof. induction bs as [|b bs IH]; simpl; [reflexivity | rewrite IH; lia]. Qed.

Lemma hexdigest_length (s : string) :
  String.length (MD5.hexdigest s) = 32%nat.
Proof.
  unfold MD5.hexdigest, MD5.digest. rewrite hex_length.
  rewrite !List.length_app, !le_bytes_length. reflexivity.
Qed.



(** ** File names *)

Lemma replace_forbidden_unfold (title : string) :
  replace_forbidden title
  = PyStr.replace "/"%char "-"%char (PyStr.replace ":"%char "-"%char title).
Proof. reflexivity. Qed.

Lemma replace_forbidden_no_slash (title : string) :
  PyStr.contains "/" (replace_forbidden title) = false.
Proof.
  rewrite replace_forbidden_unfold. apply replace_absent. discriminate.
Qed.

Lemma replace_forbidden_no_colon (title : string) :
  PyStr.contains ":" (replace_forbidden title) = false.
Proof.
  rewrite replace_forbidden_unfold. apply contains_char_replace.
  - discriminate.
  - apply replace_absent. discriminate.
Qed.

(** Sanitizing twice changes nothing: the titles of the frame went through
    [replace_forbidden] in the parse loop already. *)
Lemma replace_forbidden_idem (title : string) :
  replace_forbidden (replace_forbidden title) = replace_forbidden title.
Proof.
  rewrite (replace_forbidden_unfold (replace_forbidden title)).
  rewrite (replace_id ":"%char) by apply replace_forbidden_no_colon.
  apply replace_id, replace_forbidden_no_slash.
Qed.

Lemma hash8_length (t : string) :
  String.length (PyStr.take 8 (MD5.hexdigest t)) = 8%nat.
Proof. rewrite length_take, hexdigest_length. reflexivity. Qed.


(** The long branch of [get_safe_filename], with the slices made explicit. *)
Lemma get_safe_filename_long (title : string) :
  100 < PyStr.len (replace_forbidden title) ->
  get_safe_filename title
  = (PyStr.take 44 (replace_forbidden title) ++ "..."
     ++ PyStr.drop (String.length (replace_forbidden title) - 44)
          (replace_forbidden title)
     ++ "-" ++ PyStr.take 8 (MD5.hexdigest (replace_forbidden title)))%string.
Proof.
  intros Hlong. unfold get_safe_filename, get_safe_filename_len.
  set (t := replace_forbidden title) in *.
  destruct (Z.leb_spec (PyStr.len t) 100) as [Hle|_]; [lia|].
  assert (H8 : PyStr.len (PyStr.take 8 (MD5.hexdigest t)) = 8)
    by (unfold PyStr.len; now rewrite hash8_length).
  unfold PyStr.slice_to, PyStr.slice_last. rewrite !H8.
  change ((100 - 8 - 3) / 2) with 44. cbn [Z.ltb Z.compare].
  replace (Z.to_nat (PyStr.len t - 44)) with (String.length t - 44)%nat
    by (unfold PyStr.len; lia).
  change (Z.to_nat 44) with 44%nat.
  now rewrite !app_assoc_str.
Qed.




(** ** The format table and the lookup *)

Ltac split_keys :=
  repeat match goal with
    | |- context [Z.eqb ?a ?b] =>
        destruct (Z.eqb_spec a b); [subst; cbn [dict_get] | ]
    end.

Lemma table_entry_defined (M L : Z) :
  table_entry M L <> None <-> 1 <= L /\ L <= M /\ M <= 10.
Proof.
  unfold table_entry, LEVEL_TO_FORMAT_MAP. cbn [dict_get].
  split.
  - split_keys; intros H; try lia; try (exfalso; apply H; reflexivity).
  - intros (H1 & H2 & H3).
    split_keys; try discriminate; try lia.
Qed.

Lemma table_entry_none (M L : Z) :
  table_entry M L = None <-> ~ (1 <= L /\ L <= M /\ M <= 10).
Proof.
  rewrite <- table_entry_defined. destruct (table_entry M L); split;
    intros H; try congruence; try discriminate.
  exfalso. apply H. discriminate.
Qed.

Lemma table_none_outside (M : Z) :
  ~ (1 <= M <= 10) -> dict_get M LEVEL_TO_FORMAT_MAP = None.
Proof.
  intros H. unfold LEVEL_TO_FORMAT_MAP. cbn [dict_get].
  split_keys; try lia; reflexivity.
Qed.

Lemma table_some_inside (M : Z) :
  1 <= M <= 10 -> exists t, dict_get M LEVEL_TO_FORMAT_MAP = Some t.
Proof.
  intros H. unfold LEVEL_TO_FORMAT_MAP. cbn [dict_get].
  split_keys; try lia; eexists; reflexivity.
Qed.

(** The lookup in closed form. *)
Lemma get_format_for_level_spec (M L : Z) (u : levelset) :
  get_format_for_level M L u = (format_of M L, record_unmapped M L u).
Proof.
  unfold get_format_for_level, format_of, record_unmapped, unmapped_of.
  destruct (Z.ltb_spec M L) as [Hlt|Hle].
  - assert (E : table_entry M L = None) by (apply table_entry_none; lia).
    rewrite E. reflexivity.
  - unfold table_entry.
    destruct (dict_get M LEVEL_TO_FORMAT_MAP) as [t|] eqn:Et.
    + assert (HM : 1 <= M <= 10).
      { destruct (Z.le_gt_cases 1 M), (Z.le_gt_cases M 10); try lia;
          rewrite table_none_outside in Et by lia; discriminate. }
      destruct (dict_get L t); [reflexivity|].
      replace ((1 <=? M) && (M <=? 10)) with true; [reflexivity|].
      symmetry. apply andb_true_intro. split; apply Z.leb_le; lia.
    + assert (HM : ~ (1 <= M <= 10)).
      { intros HM. destruct (table_some_inside M HM) as [t Ht]. congruence. }
      replace ((1 <=? M) && (M <=? 10)) with false; [reflexivity|].
      symmetry. apply andb_false_iff.
      destruct (Z.leb_spec 1 M), (Z.leb_spec M 10); auto; lia.
Qed.


(** ** [sorted] *)

Lemma insert_level_perm (x : Z) (l : list Z) :
  Permutation (insert_level x l) (x :: l).
Proof.
  induction l as [|y l IH]; simpl; [reflexivity|].
  destruct (x <=? y); [reflexivity|].
  rewrite IH. apply perm_swap.
Qed.

Lemma sorted_perm (s : levelset) : Permutation (sorted s) s.
Proof.
  induction s as [|x s IH]; simpl; [constructor|].
  rewrite insert_level_perm. now constructor.
Qed.

Lemma insert_level_sorted (x : Z) (l : list Z) :
  StronglySorted Z.le l -> StronglySorted Z.le (insert_level x l).
Proof.
  induction 1 as [|y l Hl IH Hy]; simpl.
  - repeat constructor.
  - destruct (Z.leb_spec x y) as [Hxy|Hxy].
    + constructor; [now constructor|].
      constructor; [exact Hxy|].
      eapply Forall_impl; [|exact Hy]. intros z Hz. simpl in Hz. lia.
    + constructor; [exact IH|].
      eapply Permutation_Forall; [symmetry; apply insert_level_perm|].
      constructor; [lia | exact Hy].
Qed.

Lemma sorted_sorted (s : levelset) : StronglySorted Z.le (sorted s).
Proof.
  induction s as [|x s IH]; simpl; [constructor|].
  now apply insert_level_sorted.
Qed.

Lemma sorted_in (s : levelset) (x : Z) : In x (sorted s) <-> In x s.
Proof.
  split; apply Permutation_in; [|symmetry]; apply sorted_perm.
Qed.

Lemma sorted_nodup (s : levelset) : NoDup s -> NoDup (sorted s).
Proof.
  intros H. eapply Permutation_NoDup; [symmetry; apply sorted_perm | exact H].
Qed.

Lemma set_insert_in (x y : Z) (u : levelset) :
  In y (set_insert x u) <-> y = x \/ In y u.
Proof. unfold set_insert. apply set_add_iff. Qed.

Lemma set_insert_nodup (x : Z) (u : levelset) :
  NoDup u -> NoDup (set_insert x u).
Proof. unfold set_insert. apply set_add_nodup. Qed.



(** ** The frame pipeline *)



Lemma fold_max_attained (l : list Z) (a : Z) :
  fold_left Z.max l a = a \/ In (fold_left Z.max l a) l.
Proof.
  revert a; induction l as [|x l IH]; intros a; simpl; [now left|].
  destruct (IH (Z.max a x)) as [E|H]; [|now right; right].
  rewrite E. destruct (Z.max_spec a x) as [[_ ->]|[_ ->]]; auto.
Qed.

Lemma fold_max_least (l : list Z) (a b : Z) :
  a <= b -> (forall x, In x l -> x <= b) -> fold_left Z.max l a <= b.
Proof.
  intros Ha Hl. destruct (fold_max_attained l a) as [->|H]; auto.
Qed.

Lemma group_of_in {A : Type} (key : A -> string) (t : string) (df : list A)
    (r : A) :
  In r (group_of key t df) <-> In r df /\ key r = t.
Proof.
  unfold group_of. rewrite filter_In. now rewrite String.eqb_eq.
Qed.




Lemma apply_format_spec (sel : fmt -> string) (rows : list (row * Z))
    (u : levelset) :
  apply_format sel rows u
  = (map (fun rm => sel (format_of (snd rm) (Level (fst rm)))) rows,
     fold_left record_row rows u).
Proof.
  revert u; induction rows as [|[r m] rows IH]; intros u; [reflexivity|].
  cbn [apply_format]. rewrite get_format_for_level_spec, IH. reflexivity.
Qed.

Lemma combine_map3 {A B C D : Type} (f : A -> B) (g : A -> C) (h : A -> D)
    (l : list A) :
  combine (map f l) (combine (map g l) (map h l))
  = map (fun x => (f x, (g x, h x))) l.
Proof. induction l as [|x l IH]; simpl; [reflexivity | now rewrite IH]. Qed.

(** The finished frame is the row-wise image of the filtered one; the set
    has gone through the two passes of [apply]. *)
Lemma format_frame_spec (df0 : frame) (u : levelset) :
  format_frame df0 u
  = (map (render df0) df0,
     fold_left record_row (assign_MaxLevel df0)
       (fold_left record_row (assign_MaxLevel df0) u)).
Proof.
  unfold format_frame. rewrite !apply_format_spec. f_equal.
  rewrite <- (map_id (assign_MaxLevel df0)) at 1.
  rewrite combine_map3, map_map. unfold assign_MaxLevel. rewrite map_map.
  apply map_ext. intros r. unfold render. cbn [fst snd].
  destruct (format_of (max_level_of df0 r) (Level r)); reflexivity.
Qed.



Lemma render_fields (df0 : frame) (r : row) :
  fTags (render df0 r) = Tags r /\
  fTitle (render df0 r) = PyStr.replace "/"%char "-"%char (Title r) /\
  fLevel (render df0 r) = Level r /\
  fText (render df0 r) = Text r /\
  MaxLevel (render df0 r) = max_level_of df0 r /\
  (Prefix (render df0 r), Suffix (render df0 r))
  = format_of (max_level_of df0 r) (Level r) /\
  Output (render df0 r)
  = (Prefix (render df0 r) ++ Text r ++ Suffix (render df0 r))%string.
Proof.
  unfold render, finish_row.
  destruct (format_of (max_level_of df0 r) (Level r)) as [p s].
  repeat split.
Qed.



(** C7.  A lookup of a combination outside the table returns the empty
    prefix and suffix and puts one number into the set: the row's level when
    it exceeds the maximum or when the table of the maximum lacks it, the
    maximum when there is no table for it (11 for a note eleven levels
    deep).  The set holds no number twice, and the end-of-run report carries
    it once, sorted.  The run on a note eleven levels deep finishes, with
    every row undecorated and the warning [11]. *)
Theorem unmapped_level_defaults (M L : Z) (u : levelset) (df : list frow) :
  NoDup u -> table_entry M L = None ->
  let x := if M <? L then L
           else if (1 <=? M) && (M <=? 10) then L else M in
  let u' := snd (get_format_for_level M L u) in
  fst (get_format_for_level M L u) = (""%string, ""%string) /\
  u' = set_insert x u /\ NoDup u' /\
  (forall y, In y u' <-> y = x \/ In y u) /\
  (M = 11 -> L <= 11 -> x = 11) /\
  warning (final_report df u') = Some (sorted u') /\
  StronglySorted Z.le (sorted u') /\ NoDup (sorted u') /\
  (forall y, In y (sorted u') <-> In y u') /\
  run (Some eleven_levels)
  = Finished
      [ ("Note.md",
         "#workflowy-import #deep" ++ NL
         ++ PyStr.join NL (repeat "row" 11))%string ]
      (mkReport 1 (Some [11])).
Proof.
  intros Hu Hnone x u'.
  assert (Hu' : u' = set_insert x u).
  { unfold u'. rewrite get_format_for_level_spec. cbn [snd].
    unfold record_unmapped, unmapped_of. rewrite Hnone. reflexivity. }
  assert (Hnd : NoDup u') by (rewrite Hu'; now apply set_insert_nodup).
  split.
  { rewrite get_format_for_level_spec. cbn [fst]. unfold format_of.
    now rewrite Hnone. }
  split; [exact Hu'|]. split; [exact Hnd|].
  split; [intros y; rewrite Hu'; apply set_insert_in|].
  split.
  { intros -> HL. unfold x. destruct (Z.ltb_spec 11 L); [lia | reflexivity]. }
  split.
  { unfold final_report. cbn [warning].
    destruct u' as [|y0 u0] eqn:E; [|reflexivity].
    assert (H : In x (set_insert x u)) by (apply set_insert_in; now left).
    rewrite <- Hu' in H. destruct H. }
  split; [apply sorted_sorted|]. split; [now apply sorted_nodup|].
  split; [intros y; apply sorted_in|].
  vm_compute. reflexivity.
Qed.

Lemma unmapped_level_defaults_witness :
  NoDup [12] /\ table_entry 11 3 = None /\
  get_format_for_level 11 3 [12] = ((""%string, ""%string), [12; 11]) /\
  warning (final_report [] [12; 11]) = Some [11; 12].
Proof.
  assert (Hu : NoDup [12]) by (repeat constructor; simpl; tauto).
  assert (Hn : table_entry 11 3 = None) by reflexivity.
  destruct (unmapped_level_defaults 11 3 [12] [] Hu Hn)
    as (Hf & Hs & _ & _ & _ & Hw & _).
  split; [exact Hu|]. split; [exact Hn|]. split.
  - rewrite (surjective_pairing (get_format_for_level 11 3 [12])).
    rewrite Hf, Hs. reflexivity.
  - exact Hw.
Defined.

(** ** The parse loop *)

Lemma length_lstrip_char (ch : ascii) (s : string) :
  (String.length (PyStr.lstrip_char ch s) <= String.length s)%nat.
Proof.
  induction s as [|c s IH]; simpl; [lia|].
  destruct (Ascii.eqb c ch); simpl; lia.
Qed.

Lemma level_of_nonneg (line : string) : 0 <= level_of line.
Proof.
  unfold level_of, PyStr.len.
  pose proof (length_lstrip_char " "%char line).
  apply Z.quot_pos; lia.
Qed.

(** Exactly [2n] leading spaces give depth [n]. *)
Lemma level_of_indent (n : nat) (s : string) :
  (forall s', s <> String " " s') ->
  level_of (indent n ++ s) = Z.of_nat n.
Proof.
  intros Hs. unfold level_of, PyStr.len.
  assert (E : forall k, PyStr.lstrip_char " " (indent k ++ s) = s).
  { induction k as [|k IH].
    - cbn. destruct s as [|c s']; [reflexivity|]. cbn.
      destruct (Ascii.eqb_spec c " ") as [->|]; [|reflexivity].
      now destruct (Hs s').
    - cbn. exact IH. }
  rewrite E, length_app.
  assert (L : forall k, String.length (indent k) = (2 * k)%nat).
  { induction k as [|k IH]; [reflexivity|].
    change (indent (S k)) with (String " " (String " " (indent k))).
    cbn [String.length]. rewrite IH. lia. }
  rewrite L.
  replace (Z.of_nat (2 * n + String.length s) - Z.of_nat (String.length s))
    with (Z.of_nat n * 2) by lia.
  apply Z.quot_mul. lia.
Qed.

Lemma loop_body_tag (i : Z) (line : string) (e : env) :
  level_of line = 0 ->
  loop_body i line e
  = inr (mkEnv (Some (tag_of (text_of line))) (tags e) (title e)
               (note_rows e) (note_dfs e)).
Proof. intros H. unfold loop_body. rewrite H. reflexivity. Qed.

Lemma loop_body_note (i : Z) (line : string) (e : env) :
  level_of line = 1 ->
  loop_body i line e
  = match tag e with
    | None => inl (NameError "tag")
    | Some tg =>
        inr (mkEnv (Some tg)
               (Some (map PyStr.strip
                        ("workflowy-import"%string :: tg
                         :: snd (split_title (text_of line)))))
               (Some (replace_forbidden (fst (split_title (text_of line)))))
               []
               (if 1 <? i then note_dfs e ++ [note_rows e]
                else note_dfs e))
    end.
Proof.
  intros H. unfold loop_body. rewrite H. cbn [Z.eqb].
  destruct (split_title (text_of line)) as [t ts].
  destruct (tag e) as [tg|]; reflexivity.
Qed.

Lemma loop_body_row (i : Z) (line : string) (e : env) :
  2 <= level_of line ->
  loop_body i line e
  = match tags e, title e with
    | None, _ => inl (NameError "tags")
    | Some _, None => inl (NameError "title")
    | Some tgs, Some ttl =>
        inr (mkEnv (tag e) (tags e) (title e)
               (note_rows e
                ++ [mkRow tgs ttl (level_of line - 1) (text_of line)])
               (note_dfs e))
    end.
Proof.
  intros H. unfold loop_body.
  destruct (Z.eqb_spec (level_of line) 0); [lia|].
  destruct (Z.eqb_spec (level_of line) 1); [lia|].
  destruct (tags e), (title e); reflexivity.
Qed.

Lemma level_cases (line : string) :
  level_of line = 0 \/ level_of line = 1 \/ 2 <= level_of line.
Proof. pose proof (level_of_nonneg line). lia. Qed.

Lemma loop_app (a b : list string) (i : Z) (e : env) :
  loop i (a ++ b) e
  = bind (loop i a e) (loop (i + Z.of_nat (List.length a)) b).
Proof.
  revert i e; induction a as [|l a IH]; intros i e.
  - cbn. now rewrite Z.add_0_r.
  - cbn [List.app loop List.length].
    destruct (loop_body i l e) as [x|e1]; [reflexivity|].
    cbn [bind]. rewrite IH. do 2 f_equal. lia.
Qed.

(** *** Positions *)

Lemma depth_at_zero (l : string) (rest : list string) (d : Z) :
  depth_at (l :: rest) 0 d <-> level_of l = d.
Proof.
  unfold depth_at. cbn. split.
  - intros (x & E & H). now inversion E; subst.
  - intros H. eauto.
Qed.

Lemma depth_at_succ (l : string) (rest : list string) (k : nat) (d : Z) :
  depth_at (l :: rest) (S k) d <-> depth_at rest k d.
Proof. reflexivity. Qed.

Lemma depth_at_nil (k : nat) (d : Z) : ~ depth_at [] k d.
Proof. intros (x & E & _). destruct k; discriminate. Qed.

Lemma before_succ (l : string) (rest : list string) (k : nat) (d : Z) :
  (exists j, (j < S k)%nat /\ depth_at (l :: rest) j d) <->
  level_of l = d \/ exists j, (j < k)%nat /\ depth_at rest j d.
Proof.
  split.
  - intros ([|j] & Hj & H).
    + left. now apply depth_at_zero in H.
    + right. exists j. split; [lia | exact H].
  - intros [H|(j & Hj & H)].
    + exists 0%nat. split; [lia | now apply depth_at_zero].
    + exists (S j). split; [lia | exact H].
Qed.

Lemma before_zero (lines : list string) (d : Z) :
  ~ exists j, (j < 0)%nat /\ depth_at lines j d.
Proof. intros (j & Hj & _). lia. Qed.

(** *** Reading an unbound variable *)

Lemma loop_error (i : Z) (l : string) (rest : list string) (e : env)
    (x : exn) :
  loop_body i l e = inl x -> loop i (l :: rest) e = inl x.
Proof. intros H. cbn. now rewrite H. Qed.

Lemma loop_step (i : Z) (l : string) (rest : list string) (e e1 : env) :
  loop_body i l e = inr e1 -> loop i (l :: rest) e = loop (i + 1) rest e1.
Proof. intros H. cbn. now rewrite H. Qed.

(** A depth-1 line with no depth-0 line before it. *)
Lemma loop_unbound_tag (lines : list string) :
  forall (k : nat) (i : Z) (e : env),
    tag e = None -> (tags e <> None -> title e <> None) ->
    depth_at lines k 1 -> ~ tag_before lines k ->
    exists name, loop i lines e = inl (NameError name) /\
                 (name = "tag" \/ name = "tags")%string.
Proof.
  induction lines as [|l rest IH]; intros k i e Htag Hinv Hk Hno.
  - now apply depth_at_nil in Hk.
  - destruct k as [|k].
    + apply depth_at_zero in Hk. exists "tag"%string. split; [|now left].
      apply loop_error. rewrite loop_body_note by exact Hk. now rewrite Htag.
    + apply depth_at_succ in Hk. unfold tag_before in Hno.
      rewrite before_succ in Hno.
      destruct (level_cases l) as [H0|[H1|H2]].
      * exfalso. apply Hno. now left.
      * exists "tag"%string. split; [|now left].
        apply loop_error. rewrite loop_body_note by exact H1.
        now rewrite Htag.
      * pose proof (loop_body_row i l e H2) as Hb.
        destruct (tags e) as [tgs|] eqn:Etags.
        -- destruct (title e) as [ttl|] eqn:Ettl;
             [|exfalso; apply Hinv; [discriminate | reflexivity]].
           rewrite (loop_step _ _ _ _ _ Hb).
           apply (IH k); cbn; auto;
             intros H; apply Hno; right; exact H.
        -- exists "tags"%string. split; [|now right].
           now apply loop_error.
Qed.

(** A line of depth 2 or more with no depth-1 line before it. *)
Lemma loop_unbound_tags (lines : list string) :
  forall (k : nat) (i : Z) (e : env) (d : Z),
    tags e = None -> 2 <= d ->
    depth_at lines k d -> ~ note_before lines k ->
    loop i lines e = inl (NameError "tags").
Proof.
  induction lines as [|l rest IH]; intros k i e d Htags Hd Hk Hno.
  - now apply depth_at_nil in Hk.
  - destruct k as [|k].
    + apply depth_at_zero in Hk. apply loop_error.
      rewrite loop_body_row by lia. now rewrite Htags.
    + apply depth_at_succ in Hk. unfold note_before in Hno.
      rewrite before_succ in Hno.
      destruct (level_cases l) as [H0|[H1|H2]].
      * rewrite (loop_step _ _ _ _ _ (loop_body_tag i l e H0)).
        apply (IH k _ _ d); cbn; auto.
      * exfalso. apply Hno. now left.
      * apply loop_error. rewrite loop_body_row by exact H2.
        now rewrite Htags.
Qed.

(** C9.  When a depth-1 line comes with no depth-0 line before it, or a
    line of depth 2 or more comes with no depth-1 line before it, the run
    ends in an uncaught NameError: [tag] is read unbound in the first case
    (or [tags], if a deeper line came even earlier), [tags] in the second.
    An input file exists in both cases. *)
Theorem unbound_variable_aborts (lines : list string) (k : nat) (d : Z) :
  depth_at lines k d ->
  (d = 1 /\ ~ tag_before lines k) \/ (2 <= d /\ ~ note_before lines k) ->
  exists name, run (Some lines) = Aborted (NameError name) /\
               (name = "tag" \/ name = "tags")%string /\
               (2 <= d -> name = "tags"%string).
Proof.
  intros Hk [[-> Hno]|[Hd Hno]]; unfold run, parse.
  - assert (Hinv : tags env0 <> None -> title env0 <> None)
      by (intros H; now destruct H).
    destruct (loop_unbound_tag lines k 0 env0 eq_refl Hinv Hk Hno)
      as (name & E & Hn).
    exists name. rewrite E. repeat split; auto. lia.
  - rewrite (loop_unbound_tags lines k 0 env0 d); auto.
    exists "tags"%string. auto.
Qed.

Lemma unbound_variable_aborts_witness :
  run (Some [ "  - Note" ++ NL; "    - row" ++ NL ]%string)
    = Aborted (NameError "tag") /\
  run (Some [ "- Tag" ++ NL; "    - row" ++ NL ]%string)
    = Aborted (NameError "tags").
Proof.
  split.
  - destruct (unbound_variable_aborts
                [ "  - Note" ++ NL; "    - row" ++ NL ]%string 0 1)
      as (name & E & [->| ->] & _).
    + eexists. split; reflexivity.
    + left. split; [reflexivity|]. apply before_zero.
    + exact E.
    + vm_compute in E. discriminate E.
  - destruct (unbound_variable_aborts
                [ "- Tag" ++ NL; "    - row" ++ NL ]%string 1 2)
      as (name & E & _ & Hn).
    + eexists. split; reflexivity.
    + right. split; [lia|]. intros (j & Hj & (x & Hx & Hl)).
      destruct j as [|j]; [|lia]. cbn in Hx. inversion Hx; subst.
      vm_compute in Hl. discriminate Hl.
    + rewrite (Hn ltac:(lia)) in E. exact E.
Defined.

(** *** What the loop maintains *)

Lemma env0_ok : env_ok env0.
Proof.
  repeat split; cbn; try constructor; try discriminate.
  intros H. now destruct H.
Qed.

Lemma loop_body_ok (i : Z) (l : string) (e e1 : env) :
  env_ok e -> loop_body i l e = inr e1 -> env_ok e1.
Proof.
  intros (Ht & Hb & Hr & Hd) H.
  destruct (level_cases l) as [H0|[H1|H2]].
  - rewrite loop_body_tag in H by exact H0. inversion H; subst; clear H.
    unfold env_ok; cbn; auto.
  - rewrite loop_body_note in H by exact H1.
    destruct (tag e) as [tg|]; [|discriminate].
    inversion H; subst; clear H.
    unfold env_ok; cbn. refine (conj _ (conj _ (conj _ _))).
    + intros t E. inversion E; subst. apply replace_forbidden_no_slash.
    + discriminate.
    + constructor.
    + destruct (1 <? i); [|exact Hd].
      apply Forall_app. split; [exact Hd | now constructor].
  - rewrite loop_body_row in H by exact H2.
    destruct (tags e) as [tgs|]; [|discriminate].
    destruct (title e) as [ttl|] eqn:Ettl; [|discriminate].
    inversion H; subst; clear H.
    unfold env_ok; cbn. refine (conj _ (conj _ (conj _ _))).
    + exact Ht.
    + discriminate.
    + apply Forall_app. split; [exact Hr|].
      constructor; [|constructor]. split; cbn; [lia | now apply Ht].
    + exact Hd.
Qed.

Lemma loop_ok (lines : list string) :
  forall (i : Z) (e e' : env),
    env_ok e -> loop i lines e = inr e' -> env_ok e'.
Proof.
  induction lines as [|l rest IH]; intros i e e' He H.
  - cbn in H. inversion H; now subst.
  - cbn in H. destruct (loop_body i l e) as [x|e1] eqn:Eb; [discriminate|].
    cbn in H. eapply IH; [|exact H]. eapply loop_body_ok; eauto.
Qed.

Lemma parse_ok (lines : list string) (e : env) :
  parse lines = inr e -> env_ok e.
Proof. apply loop_ok, env0_ok. Qed.

(** *** Rows are kept once the index has passed 1 *)




(** *** Rows are gathered in input order *)




(** *** When every variable is bound before it is read *)

Lemma loop_succeeds (lines : list string) :
  forall (i : Z) (e : env),
    (tags e <> None -> title e <> None) ->
    (forall k, depth_at lines k 1 -> tag e <> None \/ tag_before lines k) ->
    (forall k d, depth_at lines k d -> 2 <= d ->
                 tags e <> None \/ note_before lines k) ->
    exists e', loop i lines e = inr e'.
Proof.
  induction lines as [|l rest IH]; intros i e Hinv Htag Htags.
  - exists e. reflexivity.
  - destruct (level_cases l) as [H0|[H1|H2]].
    + rewrite (loop_step _ _ _ _ _ (loop_body_tag i l e H0)).
      apply IH; cbn; auto.
      * intros k Hk. left. discriminate.
      * intros k d Hk Hd.
        destruct (Htags (S k) d Hk Hd) as [H|H]; [now left|].
        unfold note_before in H. rewrite before_succ in H.
        destruct H as [H|H]; [lia | now right].
    + destruct (Htag 0%nat) as [H|H].
      * now apply depth_at_zero.
      * pose proof (loop_body_note i l e H1) as Hb.
        destruct (tag e) as [tg|] eqn:Et; [|now destruct H].
        rewrite (loop_step _ _ _ _ _ Hb).
        apply IH; cbn.
        -- discriminate.
        -- intros k Hk. left. discriminate.
        -- intros k d Hk Hd. left. discriminate.
      * now apply before_zero in H.
    + destruct (Htags 0%nat (level_of l)) as [H|H]; auto.
      * now apply depth_at_zero.
      * pose proof (loop_body_row i l e H2) as Hb.
        destruct (tags e) as [tgs|] eqn:Etags; [|now destruct H].
        destruct (title e) as [ttl|] eqn:Ettl;
          [|exfalso; apply Hinv; [discriminate | reflexivity]].
        rewrite (loop_step _ _ _ _ _ Hb).
        apply IH; cbn.
        -- discriminate.
        -- intros k Hk.
           destruct (Htag (S k) Hk) as [H'|H']; [now left|].
           unfold tag_before in H'. rewrite before_succ in H'.
           destruct H' as [H'|H']; [lia | now right].
        -- intros k d Hk Hd. left. discriminate.
      * now apply before_zero in H.
Qed.

(** ** The export loop and the whole run *)

Lemma insert_title_in (t x : string) (l : list string) :
  In x (insert_title t l) <-> x = t \/ In x l.
Proof.
  induction l as [|y l IH]; simpl; [intuition|].
  destruct (String.compare t y) eqn:E; simpl.
  - apply String.compare_eq_iff in E. subst. intuition.
  - intuition.
  - rewrite IH. intuition.
Qed.

Lemma group_keys_in (df : list frow) (t : string) :
  In t (group_keys df) <-> exists r, In r df /\ fTitle r = t.
Proof.
  unfold group_keys. induction df as [|r df IH]; simpl.
  - split; [tauto | intros (r & [] & _)].
  - rewrite insert_title_in, IH. split.
    + intros [->|(r' & H1 & H2)]; eauto.
    + intros (r' & [->|H1] & H2); eauto.
Qed.

Lemma drop_empty_in (df : frame) (r : row) :
  In r (drop_empty df) <-> In r df /\ Text r <> ""%string.
Proof.
  unfold drop_empty. rewrite filter_In. unfold PyStr.len.
  destruct (Text r); cbn; intuition; try discriminate; reflexivity.
Qed.







(** *** The note that is open when the input ends *)

(** Lines that are not at depth 1 never add to [note_dfs]. *)
Lemma loop_open_note (body : list string) :
  forall (i : Z) (e e' : env),
    (forall l, In l body -> level_of l <> 1) ->
    loop i body e = inr e' -> note_dfs e' = note_dfs e.
Proof.
  induction body as [|l body IH]; intros i e e' Hb H.
  - cbn in H. now inversion H.
  - cbn in H. destruct (loop_body i l e) as [x|e1] eqn:Eb; [discriminate|].
    cbn in H. rewrite (IH _ _ _ (fun l' Hl => Hb l' (or_intror Hl)) H).
    destruct (level_cases l) as [H0|[H1|H2]].
    + rewrite loop_body_tag in Eb by exact H0. now inversion Eb.
    + now destruct (Hb l (or_introl eq_refl)).
    + rewrite loop_body_row in Eb by exact H2.
      destruct (tags e), (title e); try discriminate. now inversion Eb.
Qed.

(** Whatever follows the last depth-1 line is absent from what the loop
    hands to [pd.concat]. *)
Lemma open_note_not_stored (lines body : list string) (e : env) :
  (forall l, In l body -> level_of l <> 1) ->
  parse (lines ++ body) = inr e ->
  exists e0, parse lines = inr e0 /\ note_dfs e = note_dfs e0.
Proof.
  intros Hb H. unfold parse in *. rewrite loop_app in H.
  destruct (loop 0 lines env0) as [x|e0]; [discriminate|].
  exists e0. split; [reflexivity|]. eapply loop_open_note; eauto.
Qed.

(** C1: what the code does on the scenario of the specification.  At the
    end of the loop the variables hold the note as described (tag-context
    [work], title [Project A], the three tags, rows at levels 1 and 2), but
    the note was never appended to [note_dfs], and [pd.concat] of the empty
    list raises.  With a bare first line the tag-context is [rk].  Once a
    further depth-1 line follows, the file is written as described. *)
Theorem spec_example_aborts :
  parse spec_example
  = inr (mkEnv (Some "work")
           (Some ["workflowy-import"; "work"; "urgent"]) (Some "Project A")
           [ mkRow ["workflowy-import"; "work"; "urgent"] "Project A" 1
               "Step one";
             mkRow ["workflowy-import"; "work"; "urgent"] "Project A" 2
               "Detail x" ]
           [])%string /\
  run (Some spec_example)
  = Aborted (ValueError "No objects to concatenate") /\
  run (Some spec_example_bare_top)
  = Aborted (ValueError "No objects to concatenate") /\
  (exists e, parse spec_example_bare_top = inr e /\ tag e = Some "rk"%string) /\
  run (Some spec_example_then_note)
  = Finished
      [ ("Project A.md",
         "#workflowy-import #work #urgent" ++ NL
         ++ NL ++ "# Step one" ++ NL ++ NL ++ "Detail x")%string ]
      (mkReport 1 None).
Proof.
  split; [vm_compute; reflexivity|].
  split; [vm_compute; reflexivity|].
  split; [vm_compute; reflexivity|].
  split; [|vm_compute; reflexivity].
  eexists. split; vm_compute; reflexivity.
Qed.

(** C2: what the code does with two notes.  The first is stored when the
    second starts; the second is still in [note_rows] when the loop ends
    and is not part of what the formatter receives, so only the first file
    is written.  When the first depth-1 line is at index 2 or later, an
    empty frame is stored for a predecessor that does not exist. *)
Theorem last_note_is_dropped :
  parse two_notes
  = inr (mkEnv (Some "inbox") (Some ["workflowy-import"; "inbox"])
           (Some "Second")
           [ mkRow ["workflowy-import"; "inbox"] "Second" 1 "two" ]
           [ [ mkRow ["workflowy-import"; "inbox"] "First" 1 "one" ] ])%string /\
  run (Some two_notes)
  = Finished [ ("First.md", "#workflowy-import #inbox" ++ NL ++ "one")%string ]
      (mkReport 1 None) /\
  (exists e, parse two_tags_first = inr e /\
             note_dfs e
             = [ []; [ mkRow ["workflowy-import"; "work"] "First" 1 "one" ] ])%string.
Proof.
  split; [vm_compute; reflexivity|].
  split; [vm_compute; reflexivity|].
  eexists. split; vm_compute; reflexivity.
Qed.

(** ** Title and tags of a depth-1 line *)

Lemma prefix_app (p s r : string) :
  String.prefix p s = true -> String.prefix p (s ++ r) = true.
Proof.
  revert p; induction s as [|c s IH]; intros [|a p]; cbn; auto;
    try discriminate.
  - intros _. apply prefix_empty.
  - destruct (ascii_dec a c); [apply IH | discriminate].
Qed.

Lemma join_cons_char (sep : string) (c : ascii) (t : string)
    (ts : list string) :
  PyStr.join sep (String c t :: ts) = String c (PyStr.join sep (t :: ts)).
Proof. destruct ts; reflexivity. Qed.

Lemma join_head (sep t : string) (ts : list string) :
  exists rest, PyStr.join sep (t :: ts) = (t ++ rest)%string.
Proof.
  destruct ts as [|x ts].
  - exists ""%string. cbn. now rewrite app_empty_r.
  - eexists. reflexivity.
Qed.

Lemma contains_sep_cons (c : ascii) (s : string) :
  PyStr.contains " #" (String c s)
  = String.prefix " #" (String c s) || PyStr.contains " #" s.
Proof. reflexivity. Qed.

Lemma prefix_sep_single (c : ascii) :
  String.prefix " #" (String c "") = false.
Proof. cbn [String.prefix]. destruct (ascii_dec " " c); reflexivity. Qed.

Lemma prefix_sep_true (c d : ascii) (s : string) :
  String.prefix " #" (String c (String d s)) = true ->
  c = " "%char /\ d = "#"%char.
Proof.
  cbn [String.prefix].
  destruct (ascii_dec " " c); [|discriminate].
  destruct (ascii_dec "#" d); [auto | discriminate].
Qed.

Lemma split_go_cons (sep : string) (c : ascii) (s : string) :
  PyStr.split_go sep 0 (String c s)
  = if String.prefix sep (String c s)
    then let (t, ts) := PyStr.split_go sep (String.length sep - 1) s in
         (""%string, t :: ts)
    else let (t, ts) := PyStr.split_go sep 0 s in (String c t, ts).
Proof. reflexivity. Qed.

Lemma split_go_skip (sep : string) (k : nat) (c : ascii) (s : string) :
  PyStr.split_go sep (S k) (String c s) = PyStr.split_go sep k s.
Proof. reflexivity. Qed.

(** [split(' #')] cuts the text at the occurrences of the separator: the
    tokens joined by it give the text back and none contains it. *)
Lemma split_go_spec (s : string) :
  (forall t ts, PyStr.split_go " #" 0 s = (t, ts) ->
     s = PyStr.join " #" (t :: ts) /\
     Forall (fun x => PyStr.contains " #" x = false) (t :: ts)) /\
  (forall c t ts, PyStr.split_go " #" 0 (String c s) = (t, ts) ->
     String c s = PyStr.join " #" (t :: ts) /\
     Forall (fun x => PyStr.contains " #" x = false) (t :: ts)).
Proof.
  induction s as [|d s [IH1 IH2]].
  - split.
    + intros t ts H. cbn [PyStr.split_go] in H. inversion H; subst.
      split; [reflexivity|]. repeat constructor.
    + intros c t ts H. rewrite split_go_cons, prefix_sep_single in H.
      cbn [PyStr.split_go] in H. inversion H; subst.
      split; [reflexivity|]. constructor; [|constructor].
      rewrite contains_sep_cons, prefix_sep_single. reflexivity.
  - split; [exact (IH2 d)|].
    intros c t ts H. rewrite split_go_cons in H.
    destruct (String.prefix " #" (String c (String d s))) eqn:Ep.
    + destruct (prefix_sep_true _ _ _ Ep) as [-> ->].
      change (String.length " #" - 1)%nat with 1%nat in H.
      rewrite split_go_skip in H.
      destruct (PyStr.split_go " #" 0 s) as [t0 ts0] eqn:E0.
      injection H as <- <-.
      destruct (IH1 t0 ts0 eq_refl) as [Hj Hf].
      split; [|constructor; [reflexivity | exact Hf]].
      change (PyStr.join " #" (""%string :: t0 :: ts0))
        with ("" ++ " #" ++ PyStr.join " #" (t0 :: ts0))%string.
      rewrite <- Hj. reflexivity.
    + destruct (PyStr.split_go " #" 0 (String d s)) as [t0 ts0] eqn:E0.
      injection H as <- <-.
      destruct (IH2 d t0 ts0 E0) as [Hj Hf].
      split; [rewrite join_cons_char, <- Hj; reflexivity|].
      inversion Hf as [|? ? Ht0 Hts0]; subst.
      constructor; [|exact Hts0].
      rewrite contains_sep_cons, Ht0, orb_false_r.
      destruct (String.prefix " #" (String c t0)) eqn:Ep'; [|reflexivity].
      destruct (join_head " #" t0 ts0) as [rest Hrest].
      rewrite Hj, Hrest in Ep.
      change (String c (t0 ++ rest)) with (String c t0 ++ rest)%string in Ep.
      rewrite (prefix_app _ _ _ Ep') in Ep. discriminate.
Qed.

(** The first token is the text before the first separator, the others
    are the tokens of what comes after it. *)
Lemma split_go_find (s : string) :
  PyStr.split_go " #" 0 s
  = match PyStr.find " #" s with
    | Some p => (PyStr.take p s, PyStr.split " #" (PyStr.drop (p + 2) s))
    | None => (s, [])
    end.
Proof.
  induction s as [|c s IH]; [reflexivity|].
  rewrite split_go_cons. cbn [PyStr.find].
  destruct (String.prefix " #" (String c s)) eqn:Ep.
  - destruct s as [|d s]; [now rewrite prefix_sep_single in Ep|].
    change (String.length " #" - 1)%nat with 1%nat.
    rewrite split_go_skip. cbn [PyStr.take PyStr.drop Nat.add].
    unfold PyStr.split. destruct (PyStr.split_go " #" 0 s); reflexivity.
  - rewrite IH. destruct (PyStr.find " #" s) as [p|]; reflexivity.
Qed.

Lemma find_none_iff (s : string) :
  PyStr.find " #" s = None <-> PyStr.contains " #" s = false.
Proof.
  induction s as [|c s IH]; [cbn; tauto|].
  cbn [PyStr.find]. rewrite contains_sep_cons.
  destruct (String.prefix " #" (String c s)); cbn [orb].
  - split; discriminate.
  - rewrite <- IH. destruct (PyStr.find " #" s); cbn; split;
      congruence.
Qed.

Lemma split_spec (s : string) :
  exists t ts, PyStr.split " #" s = t :: ts /\
               s = PyStr.join " #" (t :: ts) /\
               Forall (fun x => PyStr.contains " #" x = false) (t :: ts).
Proof.
  unfold PyStr.split.
  destruct (PyStr.split_go " #" 0 s) as [t ts] eqn:E.
  exists t, ts. split; [reflexivity|]. now apply split_go_spec.
Qed.

Lemma no_hash_no_sep (s : string) :
  PyStr.contains "#" s = false -> PyStr.contains " #" s = false.
Proof.
  induction s as [|c s IH]; [reflexivity|].
  rewrite contains_char_cons, contains_sep_cons.
  intros H. apply orb_false_elim in H as [H1 H2].
  rewrite (IH H2), orb_false_r.
  destruct s as [|d s]; [apply prefix_sep_single|].
  destruct (String.prefix " #" (String c (String d s))) eqn:Ep; [|reflexivity].
  destruct (prefix_sep_true _ _ _ Ep) as [_ ->].
  rewrite contains_char_cons, Ascii.eqb_refl in H2. discriminate.
Qed.

Lemma split_title_spec (text : string) :
  let raw := fst (split_title text) in
  let inline := snd (split_title text) in
  text = PyStr.join " #" (raw :: inline) /\
  Forall (fun x => PyStr.contains " #" x = false) (raw :: inline) /\
  (PyStr.contains "#" text = false -> raw = text /\ inline = []).
Proof.
  unfold split_title.
  destruct (PyStr.contains "#" text) eqn:Eh.
  - destruct (split_spec text) as (t & ts & -> & Hj & Hf). cbn.
    repeat split; auto; discriminate.
  - cbn. repeat split; auto.
    constructor; [now apply no_hash_no_sep | constructor].
Qed.

Lemma split_title_find (text : string) :
  split_title text
  = match PyStr.find " #" text with
    | Some p =>
        (PyStr.take p text, PyStr.split " #" (PyStr.drop (p + 2) text))
    | None => (text, [])
    end.
Proof.
  unfold split_title, PyStr.split.
  destruct (PyStr.contains "#" text) eqn:Eh.
  - rewrite split_go_find.
    destruct (PyStr.find " #" text) as [p|]; reflexivity.
  - apply no_hash_no_sep, find_none_iff in Eh. now rewrite Eh.
Qed.

(** C5, as the code has it.  On a depth-1 line read while a tag-context
    [tg] is set, the title is the text before the first [' #'] (the whole
    text when there is none, in particular when the text has no [#]) with
    every [:] and [/] replaced by [-]; the inline tags are the
    [' #']-delimited tokens of what follows the first [' #'] (none when
    there is no [' #']); joined by [' #'], title text and inline tags give
    the text back, and none of them contains [' #'].  The tag list of the
    note is workflowy-import, the tag-context, then the inline tags in
    order, each stripped of surrounding whitespace. *)
Theorem title_and_tags (i : Z) (line : string) (e : env) (tg : string) :
  level_of line = 1 -> tag e = Some tg ->
  let text := text_of line in
  let raw := match PyStr.find " #" text with
             | Some p => PyStr.take p text
             | None => text
             end in
  let inline := match PyStr.find " #" text with
                | Some p => PyStr.split " #" (PyStr.drop (p + 2) text)
                | None => []
                end in
  loop_body i line e
  = inr (mkEnv (Some tg)
           (Some (map PyStr.strip
                    ("workflowy-import"%string :: tg :: inline)))
           (Some (replace_forbidden raw))
           []
           (if 1 <? i then note_dfs e ++ [note_rows e] else note_dfs e)) /\
  text = PyStr.join " #" (raw :: inline) /\
  Forall (fun x => PyStr.contains " #" x = false) (raw :: inline) /\
  (PyStr.contains "#" text = false -> raw = text /\ inline = []) /\
  split_title "Foo #bar #baz" = ("Foo", ["bar"; "baz"])%string /\
  split_title "Foo" = ("Foo", [])%string.
Proof.
  intros Hl Ht text raw inline.
  assert (Hs : split_title text = (raw, inline)).
  { rewrite split_title_find. unfold raw, inline.
    destruct (PyStr.find " #" text); reflexivity. }
  destruct (split_title_spec text) as (Hj & Hf & Hn).
  rewrite Hs in Hj, Hf, Hn. cbn [fst snd] in Hj, Hf, Hn.
  split.
  { rewrite loop_body_note by exact Hl. rewrite Ht. fold text.
    rewrite Hs. reflexivity. }
  repeat split; auto; apply Hn; auto.
Qed.

Lemma title_and_tags_witness :
  loop_body 1 ("  - Foo #bar  # baz" ++ NL)
    (mkEnv (Some "work") None None [] [])
  = inr (mkEnv (Some "work")
           (Some ["workflowy-import"; "work"; "bar"; "baz"])
           (Some "Foo") [] [])%string.
Proof.
  destruct (title_and_tags 1 ("  - Foo #bar  # baz" ++ NL)
              (mkEnv (Some "work") None None [] []) "work")
    as (Hb & _).
  - reflexivity.
  - reflexivity.
  - rewrite Hb. vm_compute. reflexivity.
Defined.

(** C5 as stated fails: the title is not the text itself when the text
    has a [/] or a [:]. *)
Lemma title_is_sanitized :
  let line := ("  - a/b: c" ++ NL)%string in
  level_of line = 1 /\ text_of line = "a/b: c"%string /\
  PyStr.contains "#" (text_of line) = false /\
  exists e, parse [ "- T" ++ NL; line ]%string = inr e /\
            title e = Some "a-b- c"%string /\ title e <> Some (text_of line).
Proof.
  cbv zeta. repeat split; try (vm_compute; reflexivity).
  eexists. split; [vm_compute; reflexivity|].
  split; [reflexivity | discriminate].
Qed.

(** ** What a finished run wrote *)

Lemma run_inv (lines : list string) (files : list (string * string))
    (rep : report) :
  run (Some lines) = Finished files rep ->
  exists e,
    parse lines = inr e /\
    drop_empty (concat (note_dfs e)) <> [] /\
    files = export (map (render (drop_empty (concat (note_dfs e))))
                      (drop_empty (concat (note_dfs e)))) /\
    rep = final_report
            (map (render (drop_empty (concat (note_dfs e))))
               (drop_empty (concat (note_dfs e))))
            (snd (format_frame (drop_empty (concat (note_dfs e))) [])).
Proof.
  unfold run. destruct (parse lines) as [x|e]; [discriminate|].
  intros H. exists e. split; [reflexivity|].
  unfold pd_concat, ret in H.
  destruct (note_dfs e) as [|f fs]; [discriminate|].
  remember (drop_empty (concat (f :: fs))) as df0 eqn:E0.
  destruct df0 as [|r0 rs]; [discriminate|].
  rewrite format_frame_spec in *. cbn [snd].
  inversion H; subst. repeat split. discriminate.
Qed.

Lemma parsed_rows_ok (lines : list string) (e : env) (r : row) :
  parse lines = inr e ->
  In r (drop_empty (concat (note_dfs e))) -> row_ok r.
Proof.
  intros Hp Hin. apply drop_empty_in in Hin as [Hin _].
  destruct (parse_ok lines e Hp) as (_ & _ & _ & Hd).
  apply in_concat in Hin as (f & Hf & Hr).
  rewrite Forall_forall in Hd. specialize (Hd f Hf).
  rewrite Forall_forall in Hd. now apply Hd.
Qed.

(** The second [replace('/', '-')] finds nothing to replace. *)
Lemma render_title (df0 : frame) (r : row) :
  row_ok r -> fTitle (render df0 r) = Title r.
Proof.
  intros [_ H]. destruct (render_fields df0 r) as (_ & -> & _).
  now apply replace_id.
Qed.

Lemma group_of_render (df0 df : frame) (t : string) :
  (forall r, In r df -> row_ok r) ->
  group_of fTitle t (map (render df0) df)
  = map (render df0) (group_of Title t df).
Proof.
  intros Hok. unfold group_of. induction df as [|r df IH]; [reflexivity|].
  cbn [map filter]. rewrite (render_title df0 r) by (apply Hok; now left).
  rewrite IH by (intros r' H; apply Hok; now right).
  destruct (String.eqb (Title r) t); reflexivity.
Qed.






(** ** Levels seen by the lookup *)



(* ================================================================== *)
(** * Further properties of the script                                 *)
(* ================================================================== *)

(** ** Depth of a line *)

Lemma lstrip_indent (n : nat) (s : string) :
  PyStr.lstrip_char " " (indent n ++ s) = PyStr.lstrip_char " " s.
Proof. induction n as [|n IH]; [reflexivity | cbn; exact IH]. Qed.

Lemma lstrip_nospace (s : string) :
  (forall s', s <> String " " s') -> PyStr.lstrip_char " " s = s.
Proof.
  intros Hs. destruct s as [|c s']; [reflexivity|]. cbn.
  destruct (Ascii.eqb_spec c " ") as [->|]; [|reflexivity].
  now destruct (Hs s').
Qed.

Lemma length_indent (n : nat) : String.length (indent n) = (2 * n)%nat.
Proof.
  induction n as [|n IH]; [reflexivity|]. cbn [indent String.length]. lia.
Qed.

(** X1.  A line with exactly [2n] or [2n+1] leading spaces has depth [n]:
    an odd space is rounded away. *)
Theorem depth_of_indentation (n : nat) (s : string) :
  (forall s', s <> String " " s') ->
  level_of (indent n ++ s) = Z.of_nat n /\
  level_of (indent n ++ String " " s) = Z.of_nat n.
Proof.
  intros Hs. unfold level_of, PyStr.len. rewrite !lstrip_indent.
  change (PyStr.lstrip_char " " (String " " s))
    with (PyStr.lstrip_char " " s).
  rewrite (lstrip_nospace s Hs), !length_app, length_indent.
  cbn [String.length]. split.
  - replace (Z.of_nat (2 * n + String.length s) - Z.of_nat (String.length s))
      with (Z.of_nat n * 2) by lia.
    apply Z.quot_mul. lia.
  - replace (Z.of_nat (2 * n + S (String.length s))
             - Z.of_nat (String.length s))
      with (1 + Z.of_nat n * 2) by lia.
    rewrite Z.quot_add by lia. reflexivity.
Qed.

Lemma depth_of_indentation_witness :
  level_of ("    - Step one" ++ NL) = 2 /\
  level_of ("     - Step one" ++ NL) = 2.
Proof.
  apply (depth_of_indentation 2 ("- Step one" ++ NL)).
  intros s' H. discriminate H.
Defined.

(** ** The tag-context *)

Lemma lower_char_idem (c : ascii) :
  PyStr.lower_char (PyStr.lower_char c) = PyStr.lower_char c.
Proof.
  destruct c as [[] [] [] [] [] [] [] []]; reflexivity.
Qed.

Lemma lower_char_space (c : ascii) :
  Ascii.eqb " " (PyStr.lower_char c) = Ascii.eqb " " c.
Proof. destruct c as [[] [] [] [] [] [] [] []]; reflexivity. Qed.

Lemma lower_char_slash (c : ascii) :
  Ascii.eqb "/" (PyStr.lower_char c) = Ascii.eqb "/" c.
Proof. destruct c as [[] [] [] [] [] [] [] []]; reflexivity. Qed.

Lemma lower_idem (s : string) : PyStr.lower (PyStr.lower s) = PyStr.lower s.
Proof.
  induction s as [|c s IH]; [reflexivity|].
  cbn [PyStr.lower]. now rewrite lower_char_idem, IH.
Qed.

Lemma contains_space_lower (s : string) :
  PyStr.contains " " (PyStr.lower s) = PyStr.contains " " s.
Proof.
  induction s as [|c s IH]; [reflexivity|].
  cbn [PyStr.lower]. now rewrite !contains_char_cons, lower_char_space, IH.
Qed.

Lemma contains_slash_lower (s : string) :
  PyStr.contains "/" (PyStr.lower s) = PyStr.contains "/" s.
Proof.
  induction s as [|c s IH]; [reflexivity|].
  cbn [PyStr.lower]. now rewrite !contains_char_cons, lower_char_slash, IH.
Qed.

(** X6.  A tag-context has no space and no slash, lower-casing it again
    changes nothing, and the normalisation applied to a tag-context gives
    it back. *)
Theorem tag_is_normalised (text : string) :
  PyStr.contains " " (tag_of text) = false /\
  PyStr.contains "/" (tag_of text) = false /\
  PyStr.lower (tag_of text) = tag_of text /\
  tag_of (tag_of text) = tag_of text.
Proof.
  assert (Hsp : PyStr.contains " " (tag_of text) = false).
  { unfold tag_of. rewrite contains_space_lower.
    apply contains_char_replace; [discriminate|].
    apply replace_absent. discriminate. }
  assert (Hsl : PyStr.contains "/" (tag_of text) = false).
  { unfold tag_of. rewrite contains_slash_lower.
    apply replace_absent. discriminate. }
  assert (Hlow : PyStr.lower (tag_of text) = tag_of text)
    by (unfold tag_of; apply lower_idem).
  repeat split; auto.
  unfold tag_of at 1.
  rewrite (replace_id " "%char) by exact Hsp.
  rewrite (replace_id "/"%char) by exact Hsl.
  exact Hlow.
Qed.

(** ** File names, for every title *)

Lemma contains_drop_false (x : ascii) (n : nat) (s : string) :
  PyStr.contains (String x "") s = false ->
  PyStr.contains (String x "") (PyStr.drop n s) = false.
Proof.
  revert s; induction n as [|n IH]; intros [|c s]; try (simpl; auto; fail).
  cbn [PyStr.drop]. rewrite contains_char_cons. intros H.
  apply orb_false_elim in H as [_ H]. auto.
Qed.

Lemma hex_digit_in (x : Z) :
  In (MD5.hex_digit x) (list_ascii_of_string "0123456789abcdef").
Proof.
  unfold MD5.hex_digit. apply nth_In.
  pose proof (Z.mod_pos_bound x 16). cbn. lia.
Qed.

Lemma hex_lacks (c : ascii) (bs : list Z) :
  ~ In c (list_ascii_of_string "0123456789abcdef") ->
  PyStr.contains (String c "") (MD5.hex bs) = false.
Proof.
  intros Hc. induction bs as [|b bs IH]; [reflexivity|].
  cbn [MD5.hex]. rewrite !contains_char_cons, IH, orb_false_r.
  apply orb_false_intro; apply Ascii.eqb_neq; intros E; apply Hc;
    rewrite E; apply hex_digit_in.
Qed.

Lemma not_hex_digit (c : ascii) :
  (c = ":" \/ c = "/")%char ->
  ~ In c (list_ascii_of_string "0123456789abcdef").
Proof.
  intros [-> | ->]; cbn; intros H;
    repeat (destruct H as [H|H]; [discriminate H|]); exact H.
Qed.

(** Whatever the title, the name keeps neither of the forbidden
    characters and has at most 100 characters. *)
Lemma safe_filename_clean (title : string) (c : ascii) :
  (c = ":" \/ c = "/")%char ->
  PyStr.contains (String c "") (get_safe_filename title) = false /\
  PyStr.len (get_safe_filename title) <= 100.
Proof.
  intros Hc.
  assert (Ht : PyStr.contains (String c "") (replace_forbidden title) = false).
  { destruct Hc as [-> | ->];
      [apply replace_forbidden_no_colon | apply replace_forbidden_no_slash]. }
  destruct (Z.le_gt_cases (PyStr.len (replace_forbidden title)) 100)
    as [Hshort|Hlong].
  - unfold get_safe_filename, get_safe_filename_len.
    destruct (Z.leb_spec (PyStr.len (replace_forbidden title)) 100); [|lia].
    auto.
  - rewrite get_safe_filename_long by lia. split.
    + apply contains_app_false; [now apply contains_take_false|].
      apply (contains_app_false c "..."); [destruct Hc as [-> | ->]; reflexivity|].
      apply contains_app_false; [now apply contains_drop_false|].
      apply (contains_app_false c "-"); [destruct Hc as [-> | ->]; reflexivity|].
      apply contains_take_false. unfold MD5.hexdigest.
      apply hex_lacks, not_hex_digit, Hc.
    + unfold PyStr.len in *. rewrite !length_app, length_take, length_drop.
      rewrite hash8_length. cbn [String.length]. lia.
Qed.

(** X7.  For every title, [get_safe_filename] returns a name of at most
    100 characters that contains neither [:] nor [/]. *)
Theorem safe_filename_is_safe (title : string) :
  PyStr.len (get_safe_filename title) <= 100 /\
  PyStr.contains ":" (get_safe_filename title) = false /\
  PyStr.contains "/" (get_safe_filename title) = false.
Proof.
  split; [apply (safe_filename_clean title ":"); now left|].
  split; [apply (safe_filename_clean title ":"); now left|].
  apply (safe_filename_clean title "/"); now right.
Qed.

Lemma safe_filename_fixed (title : string) :
  get_safe_filename (get_safe_filename title) = get_safe_filename title.
Proof.
  destruct (safe_filename_clean title ":" (or_introl eq_refl)) as [Hc Hl].
  destruct (safe_filename_clean title "/" (or_intror eq_refl)) as [Hs _].
  unfold get_safe_filename at 1. unfold get_safe_filename_len.
  rewrite replace_forbidden_unfold.
  rewrite (replace_id ":"%char) by exact Hc.
  rewrite (replace_id "/"%char) by exact Hs.
  destruct (Z.leb_spec (PyStr.len (get_safe_filename title)) 100);
    [reflexivity | lia].
Qed.

(** X8.  [get_safe_filename] applied to one of its results returns it
    unchanged.  So the names are not unique per title: a sanitized title of
    more than 100 characters and the (different, sanitized) title that
    spells its file name are written to the same file. *)
Theorem safe_filename_collides (title : string) :
  get_safe_filename (get_safe_filename title) = get_safe_filename title /\
  (100 < PyStr.len (replace_forbidden title) ->
   get_safe_filename title <> replace_forbidden title /\
   replace_forbidden (get_safe_filename title) = get_safe_filename title /\
   get_safe_filename (replace_forbidden title) = get_safe_filename title).
Proof.
  split; [apply safe_filename_fixed|]. intros Hlong.
  destruct (safe_filename_clean title ":" (or_introl eq_refl)) as [Hc Hl].
  destruct (safe_filename_clean title "/" (or_intror eq_refl)) as [Hs _].
  split; [intros E; rewrite E in Hl; lia|]. split.
  - rewrite replace_forbidden_unfold.
    rewrite (replace_id ":"%char) by exact Hc.
    now apply replace_id.
  - unfold get_safe_filename, get_safe_filename_len.
    now rewrite replace_forbidden_idem.
Qed.

Lemma safe_filename_collides_witness :
  100 < PyStr.len (replace_forbidden title150) /\
  get_safe_filename title150 <> replace_forbidden title150 /\
  get_safe_filename (get_safe_filename title150) = get_safe_filename title150.
Proof.
  assert (Hlong : 100 < PyStr.len (replace_forbidden title150))
    by (vm_compute; reflexivity).
  destruct (safe_filename_collides title150) as [Hfix Hcol].
  destruct (Hcol Hlong) as (Hne & _ & _).
  split; [exact Hlong|]. split; [exact Hne | exact Hfix].
Defined.

(** ** The table and the two passes *)

(** X12.  The table has an entry for [(M, L)] exactly when
    [1 <= L <= M <= 10].  For such a pair the lookup returns the entry and
    leaves the set as it is; for any other pair it records a number, so a
    lookup that starts from the empty set and ends with it was inside the
    table. *)
Theorem lookup_inside_table (M L : Z) (u : levelset) :
  (1 <= L /\ L <= M /\ M <= 10 ->
   exists f, table_entry M L = Some f /\
             get_format_for_level M L u = (f, u)) /\
  ((exists f, get_format_for_level M L [] = (f, [])) ->
   1 <= L /\ L <= M /\ M <= 10).
Proof.
  split.
  - intros H. apply table_entry_defined in H.
    destruct (table_entry M L) as [f|] eqn:E; [|congruence].
    exists f. split; [reflexivity|].
    rewrite get_format_for_level_spec.
    unfold format_of, record_unmapped, unmapped_of. now rewrite E.
  - intros (f & H). apply table_entry_defined. intros E.
    rewrite get_format_for_level_spec in H.
    unfold record_unmapped, unmapped_of in H. rewrite E in H.
    inversion H.
Qed.

Lemma lookup_inside_table_witness :
  get_format_for_level 6 3 [12]
  = ((NL ++ "### ", NL)%string, [12]).
Proof.
  destruct (lookup_inside_table 6 3 [12]) as [H _].
  destruct H as (f & E & Hf); [lia|].
  rewrite Hf. vm_compute in E. inversion E. reflexivity.
Defined.

(** X13.  The decoration of a level does not change when the note gets
    deeper inside one of the two ranges 3..5 and 6..10 of [MaxLevel]; and
    in a note of three to ten levels the first level is a level-1
    header. *)
Theorem format_stable_in_range (M M' L : Z) :
  1 <= L <= M -> M <= M' ->
  (3 <= M /\ M' <= 5) \/ (6 <= M /\ M' <= 10) ->
  format_of M' L = format_of M L /\
  format_of M 1 = (NL ++ "# ", NL)%string.
Proof.
  intros HL HM Hr.
  assert (EM : M = 3 \/ M = 4 \/ M = 5 \/ M = 6 \/ M = 7 \/ M = 8
               \/ M = 9 \/ M = 10) by lia.
  assert (EM' : M' = 3 \/ M' = 4 \/ M' = 5 \/ M' = 6 \/ M' = 7 \/ M' = 8
                \/ M' = 9 \/ M' = 10) by lia.
  assert (EL : L = 1 \/ L = 2 \/ L = 3 \/ L = 4 \/ L = 5 \/ L = 6 \/ L = 7
               \/ L = 8 \/ L = 9 \/ L = 10) by lia.
  repeat (destruct EM as [EM|EM]; try subst M);
    repeat (destruct EM' as [EM'|EM']; try subst M');
    try (exfalso; lia);
    repeat (destruct EL as [EL|EL]; try subst L);
    try (exfalso; lia); split; reflexivity.
Qed.

Lemma format_stable_in_range_witness :
  format_of 10 4 = format_of 6 4 /\ format_of 5 3 = format_of 3 3.
Proof.
  split.
  - apply (format_stable_in_range 6 10 4); lia.
  - apply (format_stable_in_range 3 5 3); lia.
Defined.




(** ** When the parse loop fails, and how *)

Lemma loop_body_bound (i : Z) (l : string) (e e1 : env) :
  (tags e <> None -> title e <> None) ->
  loop_body i l e = inr e1 ->
  (tags e1 <> None -> title e1 <> None) /\
  (level_of l = 0 \/ tag e1 = tag e) /\
  (level_of l = 1 \/ tags e1 = tags e) /\
  (level_of l = 1 -> tag e <> None) /\
  (2 <= level_of l -> tags e <> None).
Proof.
  intros Hinv H. destruct (level_cases l) as [H0|[H1|H2]].
  - rewrite loop_body_tag in H by exact H0. inversion H; subst; clear H.
    cbn. repeat split; auto; lia.
  - rewrite loop_body_note in H by exact H1.
    destruct (tag e) as [tg|] eqn:Et; [|discriminate].
    inversion H; subst; clear H. cbn.
    repeat split; auto; try discriminate; lia.
  - rewrite loop_body_row in H by exact H2.
    destruct (tags e) as [tgs|] eqn:Ets; [|discriminate].
    destruct (title e) as [ttl|] eqn:Ettl; [|discriminate].
    inversion H; subst; clear H. cbn.
    repeat split; auto; try discriminate; lia.
Qed.

Lemma loop_bound_before (lines : list string) :
  forall (i : Z) (e e' : env),
    (tags e <> None -> title e <> None) ->
    loop i lines e = inr e' ->
    (forall k, depth_at lines k 1 -> tag e <> None \/ tag_before lines k) /\
    (forall k d, depth_at lines k d -> 2 <= d ->
                 tags e <> None \/ note_before lines k).
Proof.
  induction lines as [|l rest IH]; intros i e e' Hinv H.
  - split; intros k; [intros Hk | intros d Hk _];
      now apply depth_at_nil in Hk.
  - cbn in H. destruct (loop_body i l e) as [x|e1] eqn:Eb; [discriminate|].
    cbn in H.
    destruct (loop_body_bound i l e e1 Hinv Eb) as (Hinv1 & Ht & Hts & B1 & B2).
    destruct (IH (i + 1) e1 e' Hinv1 H) as [I1 I2]. split.
    + intros [|k] Hk.
      * apply depth_at_zero in Hk. left. auto.
      * apply depth_at_succ in Hk. unfold tag_before. rewrite before_succ.
        destruct (I1 k Hk) as [Hn|Hb]; [|now right; right].
        destruct Ht as [H0|E]; [now right; left | left; now rewrite <- E].
    + intros [|k] d Hk Hd.
      * apply depth_at_zero in Hk. left. apply B2. lia.
      * apply depth_at_succ in Hk. unfold note_before. rewrite before_succ.
        destruct (I2 k d Hk Hd) as [Hn|Hb]; [|now right; right].
        destruct Hts as [H1|E]; [now right; left | left; now rewrite <- E].
Qed.

Lemma loop_exn (lines : list string) :
  forall (i : Z) (e : env) (x : exn),
    (tags e <> None -> title e <> None) ->
    loop i lines e = inl x ->
    x = NameError "tag" \/ x = NameError "tags".
Proof.
  induction lines as [|l rest IH]; intros i e x Hinv H; [discriminate|].
  cbn in H. destruct (loop_body i l e) as [y|e1] eqn:Eb.
  - cbn in H. inversion H; subst; clear H.
    destruct (level_cases l) as [H0|[H1|H2]].
    + rewrite loop_body_tag in Eb by exact H0. discriminate.
    + rewrite loop_body_note in Eb by exact H1.
      destruct (tag e); inversion Eb. now left.
    + rewrite loop_body_row in Eb by exact H2.
      destruct (tags e) as [tgs|] eqn:Ets; [|inversion Eb; now right].
      destruct (title e) as [ttl|] eqn:Ettl; [discriminate|].
      exfalso. apply Hinv; [discriminate | reflexivity].
  - cbn in H. apply (IH (i + 1) e1); [|exact H].
    now destruct (loop_body_bound i l e e1 Hinv Eb).
Qed.

Lemma env0_bound : tags env0 <> None -> title env0 <> None.
Proof. intros H. now destruct H. Qed.

(** X2.  The loop gets through the input exactly when every depth-1 line
    has a depth-0 line before it and every line of depth 2 or more has a
    depth-1 line before it; otherwise it stops with a NameError on [tag] or
    on [tags], never on [title] and never with another exception. *)
Theorem parse_succeeds_iff (lines : list string) :
  ((exists e, parse lines = inr e) <->
   (forall n, depth_at lines n 1 -> tag_before lines n) /\
   (forall n d, depth_at lines n d -> 2 <= d -> note_before lines n)) /\
  (forall x, parse lines = inl x ->
             x = NameError "tag" \/ x = NameError "tags").
Proof.
  split; [|intros x; apply loop_exn, env0_bound].
  split.
  - intros (e & He).
    destruct (loop_bound_before lines 0 env0 e env0_bound He) as [H1 H2].
    split.
    + intros n Hn. destruct (H1 n Hn) as [H|H]; [now destruct H | exact H].
    + intros n d Hn Hd.
      destruct (H2 n d Hn Hd) as [H|H]; [now destruct H | exact H].
  - intros [H1 H2]. apply loop_succeeds.
    + apply env0_bound.
    + intros k Hk. right. now apply H1.
    + intros k d Hk Hd. right. now apply (H2 k d).
Qed.

Lemma parse_succeeds_iff_witness :
  exists e, parse spec_example_then_note = inr e.
Proof.
  apply (proj2 (proj1 (parse_succeeds_iff spec_example_then_note))). split.
  - intros n (x & E & H). destruct n as [|n].
    + cbn in E. inversion E; subst. vm_compute in H. discriminate H.
    + exists 0%nat. split; [lia|]. eexists. split; reflexivity.
  - intros n d (x & E & H) Hd. destruct n as [|[|n]].
    + cbn in E. inversion E; subst. vm_compute in Hd. now destruct Hd.
    + cbn in E. inversion E; subst. vm_compute in Hd. now destruct Hd.
    + exists 1%nat. split; [lia|]. eexists. split; reflexivity.
Defined.

(** ** How many notes are stored *)

Lemma loop_body_early (i : Z) (l : string) (e e1 : env) :
  i <= 1 -> loop_body i l e = inr e1 -> note_dfs e1 = note_dfs e.
Proof.
  intros Hi H. destruct (level_cases l) as [H0|[H1|H2]].
  - rewrite loop_body_tag in H by exact H0. now inversion H.
  - rewrite loop_body_note in H by exact H1.
    destruct (tag e); [|discriminate]. inversion H; subst; clear H. cbn.
    destruct (Z.ltb_spec 1 i); [lia | reflexivity].
  - rewrite loop_body_row in H by exact H2.
    destruct (tags e), (title e); try discriminate. now inversion H.
Qed.

Lemma loop_stored_count (lines : list string) :
  forall (i : Z) (e e' : env),
    1 < i -> loop i lines e = inr e' ->
    List.length (note_dfs e')
    = (List.length (note_dfs e)
       + List.length (filter (fun l => (level_of l =? 1)%Z) lines))%nat.
Proof.
  induction lines as [|l rest IH]; intros i e e' Hi H.
  - cbn in H. inversion H; subst. cbn. lia.
  - cbn in H. destruct (loop_body i l e) as [x|e1] eqn:Eb; [discriminate|].
    cbn in H. rewrite (IH (i + 1) e1 e' ltac:(lia) H). cbn [filter].
    destruct (level_cases l) as [H0|[H1|H2]].
    + rewrite loop_body_tag in Eb by exact H0. inversion Eb; subst.
      rewrite H0. cbn. lia.
    + rewrite loop_body_note in Eb by exact H1.
      destruct (tag e); [|discriminate]. inversion Eb; subst; clear Eb.
      rewrite H1. cbn [note_dfs Z.eqb List.length].
      destruct (Z.ltb_spec 1 i); [|lia].
      rewrite List.length_app. cbn. lia.
    + rewrite loop_body_row in Eb by exact H2.
      destruct (tags e), (title e); try discriminate.
      inversion Eb; subst; clear Eb. cbn [note_dfs].
      destruct (Z.eqb_spec (level_of l) 1); [lia|]. lia.
Qed.

Lemma parse_stored_count (lines : list string) (e : env) :
  parse lines = inr e ->
  List.length (note_dfs e) = List.length (later_notes lines).
Proof.
  unfold parse, later_notes. destruct lines as [|l0 [|l1 rest]].
  - intros H. cbn in H. now inversion H.
  - intros H. cbn in H.
    destruct (loop_body 0 l0 env0) as [x|e1] eqn:E0; [discriminate|].
    cbn in H. inversion H; subst.
    now rewrite (loop_body_early 0 l0 env0 e ltac:(lia) E0).
  - intros H. cbn [loop] in H.
    destruct (loop_body 0 l0 env0) as [x|e1] eqn:E0; [discriminate|].
    cbn [bind] in H.
    destruct (loop_body (0 + 1) l1 e1) as [x|e2] eqn:E1; [discriminate|].
    cbn [bind] in H.
    rewrite (loop_stored_count rest (0 + 1 + 1) e2 e ltac:(lia) H).
    rewrite (loop_body_early (0 + 1) l1 e1 e2 ltac:(lia) E1).
    rewrite (loop_body_early 0 l0 env0 e1 ltac:(lia) E0). reflexivity.
Qed.

(** X3.  When the loop gets through the input, the number of stored
    frames is the number of depth-1 lines at index 2 or later: the position
    of the line decides, not whether a note was open before it. *)
Theorem stored_notes_count (lines : list string) (e : env) :
  parse lines = inr e ->
  List.length (note_dfs e) = List.length (later_notes lines).
Proof. apply parse_stored_count. Qed.

Lemma stored_notes_count_witness :
  exists e, parse two_tags_first = inr e /\
            List.length (note_dfs e) = 2%nat.
Proof.
  assert (H : exists e, parse two_tags_first = inr e)
    by (eexists; vm_compute; reflexivity).
  destruct H as [e He]. exists e. split; [exact He|].
  rewrite (stored_notes_count two_tags_first e He). reflexivity.
Defined.

(** X4.  The run ends in the ValueError of [pd.concat] exactly when the
    loop gets through the input and no depth-1 line stands at index 2 or
    later; an export with a single note is such an input. *)
Theorem concat_abort_iff (lines : list string) :
  run (Some lines) = Aborted (ValueError "No objects to concatenate") <->
  (exists e, parse lines = inr e) /\ later_notes lines = [].
Proof.
  unfold run. split.
  - destruct (parse lines) as [x|e] eqn:Ep.
    + intros H. inversion H; subst.
      destruct (loop_exn lines 0 env0 _ env0_bound Ep); discriminate.
    + intros H. split; [now exists e|].
      pose proof (parse_stored_count lines e Ep) as Hc.
      unfold pd_concat, ret in H.
      destruct (note_dfs e) as [|f fs].
      * destruct (later_notes lines); [reflexivity | discriminate].
      * destruct (drop_empty (concat (f :: fs))); [discriminate|].
        destruct (format_frame _ _). discriminate.
  - intros [(e & Ep) Hn]. rewrite Ep.
    pose proof (parse_stored_count lines e Ep) as Hc. rewrite Hn in Hc.
    destruct (note_dfs e); [reflexivity | discriminate].
Qed.

Lemma concat_abort_iff_witness :
  run (Some spec_example) = Aborted (ValueError "No objects to concatenate").
Proof.
  apply (proj2 (concat_abort_iff spec_example)). split.
  - eexists. vm_compute. reflexivity.
  - reflexivity.
Defined.

(** ** The open note *)

(** X5.  Only a depth-1 line closes a note.  While the lines read have
    other depths, the loop does not fail, nothing is stored, [tags] and
    [title] stay as they are, and every line of depth 2 or more becomes a
    row of the open note under these tags and this title, in input order --
    also after a depth-0 line has changed the tag-context. *)
Theorem open_note_gathers_rows (body : list string) (i : Z) (e : env)
    (tgs : list string) (ttl : string) :
  tags e = Some tgs -> title e = Some ttl ->
  (forall l, In l body -> level_of l <> 1) ->
  exists e',
    loop i body e = inr e' /\
    tags e' = Some tgs /\ title e' = Some ttl /\
    note_dfs e' = note_dfs e /\
    note_rows e' = (note_rows e ++ body_rows tgs ttl body)%list.
Proof.
  revert i e. induction body as [|l body IH]; intros i e Hts Htt Hb.
  - exists e. unfold body_rows. cbn. now rewrite app_nil_r.
  - assert (Hb' : forall l', In l' body -> level_of l' <> 1)
      by (intros l' Hl; apply Hb; now right).
    destruct (level_cases l) as [H0|[H1|H2]].
    + pose proof (loop_body_tag i l e H0) as Eb.
      destruct (IH (i + 1)
                  (mkEnv (Some (tag_of (text_of l))) (tags e) (title e)
                     (note_rows e) (note_dfs e)) Hts Htt Hb')
        as (e' & He & R1 & R2 & R3 & R4).
      exists e'. rewrite (loop_step _ _ _ _ _ Eb).
      split; [exact He|]. repeat split; auto.
      rewrite R4. unfold body_rows. cbn [filter note_rows].
      destruct (Z.leb_spec 2 (level_of l)); [lia | reflexivity].
    + now destruct (Hb l (or_introl eq_refl)).
    + pose proof (loop_body_row i l e H2) as Eb. rewrite Hts, Htt in Eb.
      destruct (IH (i + 1)
                  (mkEnv (tag e) (Some tgs) (Some ttl)
                     (note_rows e
                      ++ [mkRow tgs ttl (level_of l - 1) (text_of l)])
                     (note_dfs e)) eq_refl eq_refl Hb')
        as (e' & He & R1 & R2 & R3 & R4).
      exists e'. rewrite (loop_step _ _ _ _ _ Eb).
      split; [exact He|]. repeat split; auto.
      rewrite R4. unfold body_rows. cbn [filter note_rows map].
      destruct (Z.leb_spec 2 (level_of l)); [|lia].
      cbn [map]. now rewrite <- app_assoc.
Qed.

Lemma open_note_gathers_rows_witness :
  exists e',
    loop 2 [ "    - one" ++ NL; "- Other tag" ++ NL; "      - two" ++ NL ]%string
      (mkEnv (Some "inbox") (Some ["workflowy-import"; "inbox"])
         (Some "First") [] [])%string
    = inr e' /\
    note_rows e'
    = [ mkRow ["workflowy-import"; "inbox"] "First" 1 "one";
        mkRow ["workflowy-import"; "inbox"] "First" 2 "two" ]%string.
Proof.
  destruct (open_note_gathers_rows
              [ "    - one" ++ NL; "- Other tag" ++ NL; "      - two" ++ NL ]%string
              2
              (mkEnv (Some "inbox") (Some ["workflowy-import"; "inbox"])
                 (Some "First") [] [])%string
              ["workflowy-import"; "inbox"]%string "First"%string)
    as (e' & He & _ & _ & _ & Hr).
  - reflexivity.
  - reflexivity.
  - intros l [<-|[<-|[<-|[]]]]; vm_compute; discriminate.
  - exists e'. split; [exact He|]. rewrite Hr. vm_compute. reflexivity.
Defined.

(** ** The shape of the rows *)

Lemma env0_shaped : env_shaped env0.
Proof.
  unfold env_shaped; cbn. repeat split; try constructor; try discriminate.
  intros H. now destruct H.
Qed.

Lemma loop_body_shaped (i : Z) (l : string) (e e1 : env) :
  env_shaped e -> loop_body i l e = inr e1 -> env_shaped e1.
Proof.
  intros (Hs & Hb & Hr & Hd) H.
  destruct (level_cases l) as [H0|[H1|H2]].
  - rewrite loop_body_tag in H by exact H0. inversion H; subst; clear H.
    unfold env_shaped; cbn; auto.
  - rewrite loop_body_note in H by exact H1.
    destruct (tag e) as [tg|]; [|discriminate].
    inversion H; subst; clear H.
    unfold env_shaped; cbn [tags title note_rows note_dfs].
    refine (conj _ (conj _ (conj _ _))).
    + intros tgs ttl Ets Ettl. inversion Ets; inversion Ettl; subst.
      split; cbn [Title Tags]; [eexists; reflexivity|].
      exists tg, (snd (split_title (text_of l))). reflexivity.
    + discriminate.
    + constructor.
    + destruct (1 <? i); [|exact Hd].
      apply Forall_app. split; [exact Hd | now constructor].
  - rewrite loop_body_row in H by exact H2.
    destruct (tags e) as [tgs|] eqn:Ets; [|discriminate].
    destruct (title e) as [ttl|] eqn:Ettl; [|discriminate].
    inversion H; subst; clear H.
    unfold env_shaped; cbn [tags title note_rows note_dfs].
    refine (conj _ (conj _ (conj _ _))).
    + exact Hs.
    + discriminate.
    + apply Forall_app. split; [exact Hr|].
      constructor; [|constructor]. exact (Hs tgs ttl eq_refl eq_refl).
    + exact Hd.
Qed.

Lemma loop_shaped (lines : list string) :
  forall (i : Z) (e e' : env),
    env_shaped e -> loop i lines e = inr e' -> env_shaped e'.
Proof.
  induction lines as [|l rest IH]; intros i e e' He H.
  - cbn in H. inversion H; now subst.
  - cbn in H. destruct (loop_body i l e) as [x|e1] eqn:Eb; [discriminate|].
    cbn in H. eapply IH; [|exact H]. eapply loop_body_shaped; eauto.
Qed.

Lemma all_rows_shaped (lines : list string) (e : env) (r : row) :
  parse lines = inr e -> In r (all_rows e) -> row_shaped r /\ row_ok r.
Proof.
  intros Hp Hin.
  destruct (loop_shaped lines 0 env0 e env0_shaped Hp) as (_ & _ & Sr & Sd).
  destruct (parse_ok lines e Hp) as (_ & _ & Or & Od).
  rewrite Forall_forall in Sr, Or. unfold all_rows in Hin.
  apply in_app_iff in Hin as [Hin|Hin]; [|auto].
  apply in_concat in Hin as (f & Hf & Hr).
  rewrite Forall_forall in Sd, Od.
  specialize (Sd f Hf). specialize (Od f Hf).
  rewrite Forall_forall in Sd, Od. auto.
Qed.

(** X9.  Every row the loop gathers, stored or still open, has a level
    of at least 1, a tag list that starts with workflowy-import and has a
    second element, and a title without [:] and [/].  So the two later
    sanitizing steps (in the frame pipeline and in [get_safe_filename])
    change nothing on a parsed title, and a parsed title of at most 100
    characters is its own file name. *)
Theorem gathered_rows_are_sanitized (lines : list string) (e : env)
    (r : row) :
  parse lines = inr e -> In r (all_rows e) ->
  1 <= Level r /\
  (exists tg rest, Tags r = "workflowy-import"%string :: tg :: rest) /\
  PyStr.contains ":" (Title r) = false /\
  PyStr.contains "/" (Title r) = false /\
  PyStr.replace "/"%char "-"%char (Title r) = Title r /\
  replace_forbidden (Title r) = Title r /\
  (PyStr.len (Title r) <= 100 -> get_safe_filename (Title r) = Title r).
Proof.
  intros Hp Hin.
  destruct (all_rows_shaped lines e r Hp Hin)
    as [[(s & Hs) (tg & inl & Ht)] [Hl _]].
  split; [exact Hl|]. split; [rewrite Ht; eauto|].
  assert (Hc : PyStr.contains ":" (Title r) = false)
    by (rewrite Hs; apply replace_forbidden_no_colon).
  assert (Hsl : PyStr.contains "/" (Title r) = false)
    by (rewrite Hs; apply replace_forbidden_no_slash).
  assert (Hid : replace_forbidden (Title r) = Title r)
    by (rewrite Hs; apply replace_forbidden_idem).
  split; [exact Hc|]. split; [exact Hsl|].
  split; [now apply replace_id|]. split; [exact Hid|].
  intros Hlen. unfold get_safe_filename, get_safe_filename_len.
  rewrite Hid. destruct (Z.leb_spec (PyStr.len (Title r)) 100);
    [reflexivity | lia].
Qed.

Lemma gathered_rows_are_sanitized_witness :
  exists e r,
    parse [ "- T" ++ NL; "  - a/b: c #x" ++ NL; "    - row" ++ NL ]%string
    = inr e /\
    In r (all_rows e) /\ Title r = "a-b- c"%string /\
    get_safe_filename (Title r) = Title r.
Proof.
  assert (H : exists e,
             parse [ "- T" ++ NL; "  - a/b: c #x" ++ NL; "    - row" ++ NL ]%string
             = inr e /\
             In (mkRow ["workflowy-import"; "t"; "x"] "a-b- c" 1 "row")%string
                (all_rows e)).
  { eexists. split; [vm_compute; reflexivity|]. left. reflexivity. }
  destruct H as (e & He & Hin).
  exists e, (mkRow ["workflowy-import"; "t"; "x"] "a-b- c" 1 "row")%string.
  split; [exact He|]. split; [exact Hin|]. split; [reflexivity|].
  destruct (gathered_rows_are_sanitized _ e _ He Hin)
    as (_ & _ & _ & _ & _ & _ & Hname).
  apply Hname. vm_compute. discriminate.
Defined.

(** ** One file per title *)

Lemma ascii_compare_lt_trans (a b c : ascii) :
  Ascii.compare a b = Lt -> Ascii.compare b c = Lt -> Ascii.compare a c = Lt.
Proof.
  unfold Ascii.compare. rewrite !N.compare_lt_iff. apply N.lt_trans.
Qed.

Lemma title_lt_trans (a b c : string) :
  title_lt a b -> title_lt b c -> title_lt a c.
Proof.
  unfold title_lt. revert b c.
  induction a as [|x a IH]; intros [|y b] [|z c]; cbn; try discriminate; auto.
  destruct (Ascii.compare x y) eqn:Exy; try discriminate.
  - apply Ascii.compare_eq_iff in Exy. subst y.
    destruct (Ascii.compare x z); try discriminate; auto. apply IH.
  - intros _. destruct (Ascii.compare y z) eqn:Eyz; try discriminate.
    + apply Ascii.compare_eq_iff in Eyz. subst z. now rewrite Exy.
    + intros _. now rewrite (ascii_compare_lt_trans x y z Exy Eyz).
Qed.

Lemma insert_title_sorted (t : string) (l : list string) :
  StronglySorted title_lt l -> StronglySorted title_lt (insert_title t l).
Proof.
  induction 1 as [|x l Hl IH Hx]; cbn.
  - repeat constructor.
  - destruct (String.compare t x) eqn:E.
    + now constructor.
    + constructor; [now constructor|].
      constructor; [exact E|].
      eapply Forall_impl; [|exact Hx]. intros y Hy.
      now apply (title_lt_trans t x y).
    + constructor; [exact IH|].
      apply Forall_forall. intros y Hy. apply insert_title_in in Hy.
      destruct Hy as [->|Hy].
      * unfold title_lt. rewrite String.compare_antisym, E. reflexivity.
      * rewrite Forall_forall in Hx. auto.
Qed.

Lemma group_keys_sorted (df : list frow) :
  StronglySorted title_lt (group_keys df).
Proof.
  unfold group_keys. induction (map fTitle df) as [|t l IH]; cbn.
  - constructor.
  - now apply insert_title_sorted.
Qed.

(** X10.  A finished run writes its files in increasing order of title,
    one per title: a title has a file exactly when some stored row with
    that title has a non-empty text (a note without such a row leaves no
    file), and the count printed at the end is the number of files. *)
Theorem one_file_per_title (lines : list string)
    (files : list (string * string)) (rep : report) :
  run (Some lines) = Finished files rep ->
  exists e keys,
    parse lines = inr e /\
    map fst files = map (fun t => get_safe_filename t ++ ".md")%string keys /\
    StronglySorted title_lt keys /\
    (forall t, In t keys <->
               exists r, In r (concat (note_dfs e)) /\ Title r = t /\
                         Text r <> ""%string) /\
    exported rep = List.length files.
Proof.
  intros Hrun.
  destruct (run_inv lines files rep Hrun) as (e & Hp & _ & -> & ->).
  set (df0 := drop_empty (concat (note_dfs e))).
  exists e, (group_keys (map (render df0) df0)).
  split; [exact Hp|]. split.
  { unfold export. rewrite map_map. reflexivity. }
  split; [apply group_keys_sorted|]. split.
  - intros t. rewrite group_keys_in. split.
    + intros (fr & Hfr & Ht). apply in_map_iff in Hfr as (r & <- & Hr).
      rewrite render_title in Ht by (eapply parsed_rows_ok; eauto).
      apply drop_empty_in in Hr as [Hr Hne]. eauto.
    + intros (r & Hr & Ht & Hne).
      assert (Hin : In r df0) by (apply drop_empty_in; auto).
      exists (render df0 r). split; [now apply in_map|].
      rewrite render_title by (eapply parsed_rows_ok; eauto). exact Ht.
  - unfold final_report, export. cbn [exported]. now rewrite length_map.
Qed.

Lemma one_file_per_title_witness :
  exists e keys,
    parse same_title_twice = inr e /\
    map fst [ ("Plan.md"%string, plan_md) ]
    = map (fun t => get_safe_filename t ++ ".md")%string keys /\
    StronglySorted title_lt keys.
Proof.
  destruct (one_file_per_title same_title_twice
              [ ("Plan.md"%string, plan_md) ] (mkReport 1 None))
    as (e & keys & Hp & Hn & Hs & _).
  - vm_compute. reflexivity.
  - exists e, keys. auto.
Defined.

(** X11.  Every file of a finished run begins with [#workflowy-import #]:
    the fixed tag comes first in the header and the tag-context follows
    it. *)
Theorem header_starts_with_import_tag (lines : list string)
    (files : list (string * string)) (rep : report) (name content : string) :
  run (Some lines) = Finished files rep -> In (name, content) files ->
  exists rest, content = ("#workflowy-import #" ++ rest)%string.
Proof.
  intros Hrun Hin.
  destruct (run_inv lines files rep Hrun) as (e & Hp & _ & -> & _).
  set (df0 := drop_empty (concat (note_dfs e))) in *.
  assert (Hok : forall r, In r df0 -> row_ok r)
    by (intros r Hr; eapply parsed_rows_ok; eauto).
  unfold export in Hin. apply in_map_iff in Hin as (t & Hg & Ht).
  apply group_keys_in in Ht as (fr & Hfr & Hft).
  unfold export_group in Hg. injection Hg as _ <-.
  rewrite group_of_render by exact Hok.
  apply in_map_iff in Hfr as (r & <- & Hr).
  rewrite render_title in Hft by auto.
  destruct (group_of Title t df0) as [|r0 rs] eqn:Eg.
  { assert (H : In r (group_of Title t df0)) by (apply group_of_in; auto).
    rewrite Eg in H. destruct H. }
  assert (Hr0 : In r0 (all_rows e)).
  { assert (H : In r0 (group_of Title t df0)) by (rewrite Eg; now left).
    apply group_of_in in H as [H _]. apply drop_empty_in in H as [H _].
    unfold all_rows. apply in_app_iff. now left. }
  destruct (all_rows_shaped lines e r0 Hp Hr0) as [[_ (tg & inl & Htags)] _].
  unfold file_content. cbn [map].
  destruct (render_fields df0 r0) as (-> & _). rewrite Htags.
  change (PyStr.join " #"
            ("workflowy-import"%string :: PyStr.strip tg
             :: map PyStr.strip inl))
    with ("workflowy-import" ++ " #"
          ++ PyStr.join " #" (PyStr.strip tg :: map PyStr.strip inl))%string.
  cbn [String.append]. eexists. reflexivity.
Qed.

Lemma header_starts_with_import_tag_witness :
  exists rest, plan_md = ("#workflowy-import #" ++ rest)%string.
Proof.
  apply (header_starts_with_import_tag same_title_twice
           [ ("Plan.md"%string, plan_md) ] (mkReport 1 None) "Plan.md").
  - vm_compute. reflexivity.
  - now left.
Defined.

(** ** The tag-context of a note *)

Lemma loop_keeps_tag (mids : list string) :
  forall (i : Z) (e e' : env),
    (forall l, In l mids -> level_of l <> 0) ->
    loop i mids e = inr e' -> tag e' = tag e.
Proof.
  induction mids as [|l mids IH]; intros i e e' Hm H.
  - cbn in H. now inversion H.
  - cbn in H. destruct (loop_body i l e) as [x|e1] eqn:Eb; [discriminate|].
    cbn in H. rewrite (IH _ _ _ (fun l' Hl => Hm l' (or_intror Hl)) H).
    destruct (level_cases l) as [H0|[H1|H2]].
    + now destruct (Hm l (or_introl eq_refl)).
    + rewrite loop_body_note in Eb by exact H1.
      destruct (tag e) as [tg|] eqn:Et; [|discriminate]. now inversion Eb.
    + rewrite loop_body_row in Eb by exact H2.
      destruct (tags e), (title e); try discriminate. now inversion Eb.
Qed.

(** X15.  A note carries the tag-context of the nearest depth-0 line
    above it: when the input ends with a depth-1 line, and the last
    depth-0 line before it is [tagline], the tag list left in [tags] is
    workflowy-import, the normalised and stripped text of [tagline], then
    the stripped inline tags of the note line. *)
Theorem note_takes_nearest_tag (pre mids : list string)
    (tagline noteline : string) (e : env) :
  level_of tagline = 0 -> level_of noteline = 1 ->
  (forall l, In l mids -> level_of l <> 0) ->
  parse (pre ++ tagline :: mids ++ [noteline]) = inr e ->
  tags e
  = Some ("workflowy-import"%string
          :: PyStr.strip (tag_of (text_of tagline))
          :: map PyStr.strip (snd (split_title (text_of noteline)))) /\
  title e = Some (replace_forbidden (fst (split_title (text_of noteline)))) /\
  note_rows e = [].
Proof.
  intros Ht Hn Hm Hp. unfold parse in Hp.
  rewrite loop_app in Hp.
  destruct (loop 0 pre env0) as [x|e1]; [discriminate|].
  cbn [bind loop] in Hp. rewrite loop_body_tag in Hp by exact Ht.
  cbn [bind] in Hp. rewrite loop_app in Hp.
  match type of Hp with
  | bind (loop ?i mids ?e2) _ = _ =>
      destruct (loop i mids e2) as [x|e3] eqn:E3; [discriminate|];
      apply loop_keeps_tag in E3; [|exact Hm]; cbn [tag] in E3
  end.
  cbn [bind loop] in Hp. rewrite loop_body_note in Hp by exact Hn.
  rewrite E3 in Hp. cbn [bind] in Hp. inversion Hp; subst; clear Hp.
  cbn [tags title note_rows]. repeat split.
Qed.

Lemma note_takes_nearest_tag_witness :
  exists e,
    parse ([ ("- Old" ++ NL)%string ] ++ ("- My Tag/Sub" ++ NL)%string
           :: [ ("  - First" ++ NL)%string; ("    - row" ++ NL)%string ]
           ++ [ ("  - Second #x" ++ NL)%string ]) = inr e /\
    tags e = Some ["workflowy-import"; "my-tag-sub"; "x"]%string.
Proof.
  assert (H : exists e,
             parse ([ ("- Old" ++ NL)%string ]
                    ++ ("- My Tag/Sub" ++ NL)%string
                    :: [ ("  - First" ++ NL)%string;
                         ("    - row" ++ NL)%string ]
                    ++ [ ("  - Second #x" ++ NL)%string ]) = inr e)
    by (eexists; vm_compute; reflexivity).
  destruct H as [e He]. exists e. split; [exact He|].
  destruct (note_takes_nearest_tag
              [ ("- Old" ++ NL)%string ]
              [ ("  - First" ++ NL)%string; ("    - row" ++ NL)%string ]
              ("- My Tag/Sub" ++ NL)%string ("  - Second #x" ++ NL)%string e)
    as (Htags & _).
  - reflexivity.
  - reflexivity.
  - intros l [<-|[<-|[]]]; vm_compute; discriminate.
  - exact He.
  - rewrite Htags. vm_compute. reflexivity.
Defined.

(** ** Every row lands in one file *)

Lemma filter_disjoint_perm {A : Type} (p q : A -> bool) (l : list A) :
  (forall x, p x = true -> q x = false) ->
  Permutation (filter p l ++ filter q l) (filter (fun x => p x || q x) l).
Proof.
  intros Hd. induction l as [|x l IH]; [constructor|].
  cbn [filter]. destruct (p x) eqn:Ep.
  - rewrite (Hd x Ep). cbn. now constructor.
  - destruct (q x) eqn:Eq; cbn; [|exact IH].
    rewrite <- Permutation_middle. now constructor.
Qed.

Lemma groups_perm {A : Type} (key : A -> string) (keys : list string)
    (df : list A) :
  NoDup keys ->
  Permutation (concat (map (fun t => group_of key t df) keys))
              (filter (fun r => existsb (String.eqb (key r)) keys) df).
Proof.
  induction 1 as [|k ks Hk Hks IH]; cbn [map concat existsb].
  - induction df as [|r df IHdf]; [constructor | exact IHdf].
  - rewrite IH. unfold group_of. apply filter_disjoint_perm.
    intros r Hr. apply String.eqb_eq in Hr.
    destruct (existsb (String.eqb (key r)) ks) eqn:E; [|reflexivity].
    apply existsb_exists in E as (t & Ht & Et).
    apply String.eqb_eq in Et. congruence.
Qed.

Lemma title_lt_irrefl (t : string) : ~ title_lt t t.
Proof.
  unfold title_lt. induction t as [|c t IH]; cbn; [discriminate|].
  unfold Ascii.compare. rewrite N.compare_refl. exact IH.
Qed.

Lemma sorted_titles_nodup (l : list string) :
  StronglySorted title_lt l -> NoDup l.
Proof.
  induction 1 as [|x l Hl IH Hx]; constructor; [|exact IH].
  intros Hin. rewrite Forall_forall in Hx.
  exact (title_lt_irrefl x (Hx x Hin)).
Qed.

(** X16.  Grouping loses and repeats nothing: in a finished run the rows
    of the files, taken file after file, are a rearrangement of the stored
    rows with a non-empty text, and inside a file they keep their order. *)
Theorem every_row_in_one_file (lines : list string)
    (files : list (string * string)) (rep : report) :
  run (Some lines) = Finished files rep ->
  exists e keys,
    parse lines = inr e /\
    map fst files = map (fun t => get_safe_filename t ++ ".md")%string keys /\
    Permutation
      (concat (map (fun t =>
                      group_of Title t (drop_empty (concat (note_dfs e))))
                 keys))
      (drop_empty (concat (note_dfs e))) /\
    map snd files
    = map (fun t =>
             file_content
               (map (render (drop_empty (concat (note_dfs e))))
                  (group_of Title t (drop_empty (concat (note_dfs e))))))
        keys.
Proof.
  intros Hrun.
  destruct (run_inv lines files rep Hrun) as (e & Hp & _ & -> & _).
  set (df0 := drop_empty (concat (note_dfs e))).
  assert (Hok : forall r, In r df0 -> row_ok r)
    by (intros r Hr; eapply parsed_rows_ok; eauto).
  exists e, (group_keys (map (render df0) df0)).
  split; [exact Hp|]. split; [unfold export; now rewrite map_map|]. split.
  - rewrite groups_perm
      by (apply sorted_titles_nodup, group_keys_sorted).
    replace (filter _ df0) with df0; [reflexivity|].
    symmetry. apply forallb_filter_id. apply forallb_forall. intros r Hr.
    apply existsb_exists. exists (Title r). split; [|apply String.eqb_refl].
    apply group_keys_in. exists (render df0 r).
    split; [now apply in_map | now apply render_title; auto].
  - unfold export. rewrite map_map. apply map_ext. intros t.
    unfold export_group. cbn [snd]. now rewrite group_of_render.
Qed.

Lemma every_row_in_one_file_witness :
  exists e keys,
    parse same_title_twice = inr e /\
    Permutation
      (concat (map (fun t =>
                      group_of Title t (drop_empty (concat (note_dfs e))))
                 keys))
      (drop_empty (concat (note_dfs e))).
Proof.
  destruct (every_row_in_one_file same_title_twice
              [ ("Plan.md"%string, plan_md) ] (mkReport 1 None))
    as (e & keys & Hp & _ & Hperm & _).
  - vm_compute. reflexivity.
  - exists e, keys. auto.
Defined.
